(** * TechStore API: a shallow embedding of [Backend/index.js]

    The backend keeps three in-memory arrays ([products], [users], [sales])
    that every Express handler reads and mutates, and rewrites the matching
    JSON file after each mutation.  A handler is embedded as a function from
    the server state to the new state and the HTTP response.

    Conventions of the embedding:
    - JSON numbers (ids, prices, stocks, quantities) are integers ([Z]);
    - a body field that may be missing is an [option string], [None]
      standing for [undefined];
    - an array is a [list]; [find]/[findIndex] is [list_find], an update of
      the object found is [alter] at its index, [splice(i, 1)] is [delete];
    - [writeFile] always succeeds and stores the collection as it is. *)

From Stdlib Require Import Ascii.
From stdpp Require Import base strings list numbers pretty.

Open Scope string_scope.
Open Scope list_scope.

(** ** JSON values, as sent by [res.json] *)

#[local] Unset Elimination Schemes.
Inductive JSON : Type :=
  | JNull
  | JNum (n : Z)
  | JStr (s : string)
  | JArr (elems : list JSON)
  | JObj (fields : list (string * JSON)).
#[local] Set Elimination Schemes.

(** Own enumerable properties of an object, in insertion order. *)
Abbreviation Obj := (list (string * JSON)).

(** [obj[key]]: the first (and, for the objects built here, only) binding. *)
Definition get (key : string) (o : Obj) : option JSON :=
  match list_find (λ kv : string * JSON, kv.1 = key) o with
  | Some (_, kv) => Some kv.2
  | None => None
  end.

(** [const { [key]: _, ...rest } = o]: every property but [key]. *)
Definition omit (key : string) (o : Obj) : Obj :=
  filter (λ kv : string * JSON, kv.1 ≠ key) o.

(** Field of a JSON value that is an object. *)
Definition field (key : string) (j : JSON) : option JSON :=
  match j with
  | JObj o => get key o
  | _ => None
  end.

(** ** The three collections *)

Module Product.
Record t : Type := mk {
  id : Z;
  name : string;
  category : string;
  price : Z;
  stock : Z;
  image : string
}.

Definition set_price (v : Z) (p : t) : t :=
  mk (id p) (name p) (category p) v (stock p) (image p).

(** [product.stock -= q] *)
Definition sub_stock (q : Z) (p : t) : t :=
  mk (id p) (name p) (category p) (price p) (stock p - q) (image p).

Definition to_obj (p : t) : Obj :=
  [("id", JNum (id p)); ("name", JStr (name p));
   ("category", JStr (category p)); ("price", JNum (price p));
   ("stock", JNum (stock p)); ("image", JStr (image p))].
End Product.

Module User.
(** [password] is [None] for the accounts that the first version of
    [POST /orders] created on the fly: those objects have no such key. *)
Record t : Type := mk {
  id : Z;
  name : string;
  email : string;
  password : option string;
  phone : string;
  address : string;
  role : string
}.

Definition set_id (v : Z) (u : t) : t :=
  mk v (name u) (email u) (password u) (phone u) (address u) (role u).
Definition set_name (v : string) (u : t) : t :=
  mk (id u) v (email u) (password u) (phone u) (address u) (role u).
Definition set_phone (v : string) (u : t) : t :=
  mk (id u) (name u) (email u) (password u) v (address u) (role u).
Definition set_address (v : string) (u : t) : t :=
  mk (id u) (name u) (email u) (password u) (phone u) v (role u).
Definition set_role (v : string) (u : t) : t :=
  mk (id u) (name u) (email u) (password u) (phone u) (address u) v.

Definition to_obj (u : t) : Obj :=
  [("id", JNum (id u)); ("name", JStr (name u)); ("email", JStr (email u))]
  ++ match password u with
     | Some h => [("password", JStr h)]
     | None => []
     end
  ++ [("phone", JStr (phone u)); ("address", JStr (address u));
      ("role", JStr (role u))].
End User.

Module Sale.
Record t : Type := mk {
  id : Z;
  userId : Z;
  productId : Z;
  quantity : Z;
  total : Z;
  date : string
}.

Definition to_obj (s : t) : Obj :=
  [("id", JNum (id s)); ("userId", JNum (userId s));
   ("productId", JNum (productId s)); ("quantity", JNum (quantity s));
   ("total", JNum (total s)); ("date", JStr (date s))].
End Sale.

(** One line of the cart sent to [POST /orders], when it is an object with
    an integer [id] and [quantity], as the storefront sends it.  The
    handler does not check this: [RawLine] has the other lines. *)
Module Item.
Record t : Type := mk { id : Z; quantity : Z }.
End Item.

(** Payload of the bearer token: [{ id, email, role }]. *)
Module Claim.
Record t : Type := mk { id : Z; email : string; role : string }.
End Claim.

(** ** Server state: the arrays in memory and the files on disk *)

Record State : Type := mkState {
  products : list Product.t;
  users : list User.t;
  sales : list Sale.t;
  products_json : list Product.t;
  users_json : list User.t;
  sales_json : list Sale.t
}.

Definition set_products (ps : list Product.t) (st : State) : State :=
  mkState ps (users st) (sales st)
          (products_json st) (users_json st) (sales_json st).
Definition set_users (us : list User.t) (st : State) : State :=
  mkState (products st) us (sales st)
          (products_json st) (users_json st) (sales_json st).
Definition set_sales (ss : list Sale.t) (st : State) : State :=
  mkState (products st) (users st) ss
          (products_json st) (users_json st) (sales_json st).

(** [await writeFile('./data/<collection>.json', JSON.stringify(...))] *)
Definition write_products (st : State) : State :=
  mkState (products st) (users st) (sales st)
          (products st) (users_json st) (sales_json st).
Definition write_users (st : State) : State :=
  mkState (products st) (users st) (sales st)
          (products_json st) (users st) (sales_json st).
Definition write_sales (st : State) : State :=
  mkState (products st) (users st) (sales st)
          (products_json st) (users_json st) (sales st).

(** ** Responses *)

Record Response : Type := mkResponse { status : nat; body : JSON }.

(** [res.status(code).json({ error: msg })] *)
Definition error (code : nat) (msg : string) : Response :=
  mkResponse code (JObj [("error", JStr msg)]).

Definition Handler : Type := State → State * Response.

(** ** JavaScript helpers *)

(** [!!v] for a value that is a string or [undefined]. *)
Definition truthy (v : option string) : bool :=
  match v with
  | Some s => negb (bool_decide (s = ""))
  | None => false
  end.

(** [v || ''] *)
Definition or_empty (v : option string) : string := default "" v.

(** [s.split(' ')] *)
Fixpoint split_space (s : string) : list string :=
  match s with
  | EmptyString => [""]
  | String c rest =>
      if bool_decide (c = " "%char) then "" :: split_space rest
      else match split_space rest with
           | w :: ws => String c w :: ws
           | [] => [String c ""]
           end
  end.

(** [[...new Set(values)]]: the distinct values in first-seen order. *)
Definition set_add (seen : list string) (v : string) : list string :=
  if bool_decide (v ∈ seen) then seen else seen ++ [v].

Definition new_Set (values : list string) : list string :=
  foldl set_add [] values.

(** ** [POST /orders] on a body that is not checked

    The handler validates neither the lines nor their fields.  Here a line
    of [items] is [null] or an object whose [id] and [quantity] are an
    integer or absent; arithmetic on an absent field gives [NaN], and
    reading a field of [null] throws, which the [catch] of the handler
    answers with 500.  (Other ill-typed values, such as strings, are not
    covered.) *)

(** A JavaScript number: an integer, or [NaN]. *)
Inductive JsNum : Type :=
  | Num (z : Z)
  | NaN.

(** [ToNumber] of a field that holds an integer or is [undefined]. *)
Definition to_number (v : option Z) : JsNum :=
  match v with
  | Some z => Num z
  | None => NaN
  end.

Definition js_add (a b : JsNum) : JsNum :=
  match a, b with
  | Num x, Num y => Num (x + y)
  | _, _ => NaN
  end.

Definition js_sub (a b : JsNum) : JsNum :=
  match a, b with
  | Num x, Num y => Num (x - y)
  | _, _ => NaN
  end.

Definition js_mul (a b : JsNum) : JsNum :=
  match a, b with
  | Num x, Num y => Num (x * y)
  | _, _ => NaN
  end.

(** [a < b], which is false as soon as one side is [NaN]. *)
Definition js_lt (a b : JsNum) : bool :=
  match a, b with
  | Num x, Num y => bool_decide (x < y)%Z
  | _, _ => false
  end.

(** [`${n}`] *)
Definition js_show (a : JsNum) : string :=
  match a with
  | Num z => pretty z
  | NaN => "NaN"
  end.

(** [JSON.stringify] writes [NaN] as [null]. *)
Definition js_json (a : JsNum) : JSON :=
  match a with
  | Num z => JNum z
  | NaN => JNull
  end.

(** A product whose stock may have become [NaN]. *)
Module RawProduct.
Record t : Type := mk {
  id : Z;
  name : string;
  category : string;
  price : Z;
  stock : JsNum;
  image : string
}.

(** [product.stock -= q] *)
Definition sub_stock (q : JsNum) (p : t) : t :=
  mk (id p) (name p) (category p) (price p) (js_sub (stock p) q) (image p).

Definition of_product (p : Product.t) : t :=
  mk (Product.id p) (Product.name p) (Product.category p) (Product.price p)
     (Num (Product.stock p)) (Product.image p).
End RawProduct.

(** A sale whose quantity may be absent and whose total may be [NaN]. *)
Module RawSale.
Record t : Type := mk {
  id : Z;
  userId : Z;
  productId : Z;
  quantity : option Z;
  total : JsNum;
  date : string
}.

(** As [JSON.stringify] shows it: an [undefined] field is left out. *)
Definition to_obj (s : t) : Obj :=
  [("id", JNum (id s)); ("userId", JNum (userId s));
   ("productId", JNum (productId s))]
  ++ match quantity s with
     | Some q => [("quantity", JNum q)]
     | None => []
     end
  ++ [("total", js_json (total s)); ("date", JStr (date s))].

Definition of_sale (s : Sale.t) : t :=
  mk (Sale.id s) (Sale.userId s) (Sale.productId s) (Some (Sale.quantity s))
     (Num (Sale.total s)) (Sale.date s).
End RawSale.

(** An element of [items] as it comes in the body. *)
Inductive RawLine : Type :=
  | LineNull
  | LineObject (id quantity : option Z).

Definition raw_line (item : Item.t) : RawLine :=
  LineObject (Some (Item.id item)) (Some (Item.quantity item)).

(** The state once stocks and totals may be [NaN]; a file holds what
    [JSON.stringify] made of the collection written to it. *)
Record RawState : Type := mkRawState {
  raw_products : list RawProduct.t;
  raw_users : list User.t;
  raw_sales : list RawSale.t;
  raw_products_json : list RawProduct.t;
  raw_users_json : list User.t;
  raw_sales_json : list RawSale.t
}.

Definition raw_state (st : State) : RawState :=
  mkRawState (RawProduct.of_product <$> products st) (users st)
             (RawSale.of_sale <$> sales st)
             (RawProduct.of_product <$> products_json st) (users_json st)
             (RawSale.of_sale <$> sales_json st).

Inductive RawLoopResult : Type :=
  | RawAborted (ps : list RawProduct.t) (r : Response)
  | RawThrew (ps : list RawProduct.t)
  | RawCompleted (ps : list RawProduct.t) (newSales : list RawSale.t)
                 (orderTotal : JsNum).

(** ** External libraries

    [bcrypt] and [jsonwebtoken] are not part of the repository, and the
    clock is not under the program's control: the handlers are written
    against this interface.  An instance stands for the libraries and the
    clock while one request is handled: [now n] is the string that the
    [n]-th evaluation of [new Date().toISOString()] of the request
    returns, and [jwt_sign] is [jwt.sign] at the time of the request (the
    token carries its time of issue and of expiry, so that two requests
    get different tokens for one claim; a property of two requests takes
    one instance for each). *)

Class Externals : Type := {
  bcrypt_hash : string → string;
  bcrypt_compare : string → string → bool;
  jwt_sign : Claim.t → string;
  jwt_verify : string → option Claim.t;
  now : nat → string
}.

Section Server.
Context `{Externals}.

(** ** Authentication middleware *)

(** [const token = authHeader && authHeader.split(' ')[1]] *)
Definition bearer_token (authHeader : option string) : option string :=
  match authHeader with
  | Some h => if truthy (Some h) then split_space h !! 1 else Some h
  | None => None
  end.

Definition authenticateToken (authHeader : option string)
    (next : Claim.t → Handler) : Handler := λ st,
  let token := bearer_token authHeader in
  if negb (truthy token) then (st, error 401 "Token no proporcionado")
  else match jwt_verify (or_empty token) with
       | None => (st, error 403 "Token inválido o expirado")
       | Some user => next user st
       end.

Definition isAdmin (user : Claim.t) (next : Handler) : Handler := λ st,
  if bool_decide (Claim.role user ≠ "admin")
  then (st, error 403 "Acceso denegado. Se requiere rol de administrador")
  else next st.

(** [jwt.sign({ id, email, role }, JWT_SECRET, { expiresIn: '24h' })] *)
Definition token_for (u : User.t) : string :=
  jwt_sign (Claim.mk (User.id u) (User.email u) (User.role u)).

(** [const { password: _, ...userWithoutPassword } = user] *)
Definition userWithoutPassword (u : User.t) : Obj :=
  omit "password" (User.to_obj u).

(** ** Public routes *)

(** [GET /products] *)
Definition get_products : Handler := λ st,
  (st, mkResponse 200 (JArr (JObj ∘ Product.to_obj <$> products st))).

(** [GET /products/:id]; the route parameter is compared with [==], so a
    numeric string matches the product with that number. *)
Definition get_product (id : Z) : Handler := λ st,
  match list_find (λ p, Product.id p = id) (products st) with
  | Some (_, product) => (st, mkResponse 200 (JObj (Product.to_obj product)))
  | None => (st, error 404 "Producto no encontrado")
  end.

Definition categories (ps : list Product.t) : list string :=
  new_Set (Product.category <$> ps).

(** [GET /categories] *)
Definition get_categories : Handler := λ st,
  (st, mkResponse 200 (JArr (JStr <$> categories (products st)))).

(** Body of [POST /auth/register]. *)
Record RegisterBody : Type := mkRegisterBody {
  reg_name : option string;
  reg_email : option string;
  reg_password : option string;
  reg_phone : option string;
  reg_address : option string
}.

(** [POST /auth/register], when no other request is handled while it
    awaits the hash; [register_check] and [register_commit] are the parts
    before and after that [await]. *)
Definition post_auth_register (b : RegisterBody) : Handler := λ st,
  if negb (truthy (reg_name b)) || negb (truthy (reg_email b))
     || negb (truthy (reg_password b))
  then (st, error 400 "Nombre, email y contraseña son requeridos")
  else
    let email := or_empty (reg_email b) in
    match list_find (λ u, User.email u = email) (users st) with
    | Some existingUser => (st, error 400 "El email ya está registrado")
    | None =>
        let hashedPassword := bcrypt_hash (or_empty (reg_password b)) in
        let newUser :=
          User.mk (Z.of_nat (length (users st)) + 1)
                  (or_empty (reg_name b)) email (Some hashedPassword)
                  (or_empty (reg_phone b)) (or_empty (reg_address b))
                  "customer" in
        let st := write_users (set_users (users st ++ [newUser]) st) in
        (st, mkResponse 201 (JObj [
           ("message", JStr "Usuario registrado exitosamente");
           ("user", JObj (userWithoutPassword newUser));
           ("token", JStr (token_for newUser))]))
    end.

(** [POST /auth/login].  [bcrypt.compare] rejects when the stored user has
    no hash, which the handler's [catch] turns into a 500. *)
Definition post_auth_login (email password : option string) : Handler := λ st,
  if negb (truthy email) || negb (truthy password)
  then (st, error 400 "Email y contraseña son requeridos")
  else
    match list_find (λ u, User.email u = or_empty email) (users st) with
    | None => (st, error 401 "Credenciales inválidas")
    | Some (_, user) =>
        match User.password user with
        | None => (st, error 500 "Error al iniciar sesión")
        | Some hash =>
            if negb (bcrypt_compare (or_empty password) hash)
            then (st, error 401 "Credenciales inválidas")
            else (st, mkResponse 200 (JObj [
                   ("message", JStr "Login exitoso");
                   ("user", JObj (userWithoutPassword user));
                   ("token", JStr (token_for user))]))
        end
    end.

(** ** Protected routes *)

(** Outcome of the [for (const item of items)] loop of [POST /orders]: the
    [products] array as the loop left it, and either the response of the
    [return] that left the loop early or the locals [newSales] and
    [orderTotal]. *)
Inductive LoopResult : Type :=
  | Aborted (ps : list Product.t) (r : Response)
  | Completed (ps : list Product.t) (newSales : list Sale.t) (orderTotal : Z).

Fixpoint order_loop (nsales : nat) (userId : Z) (items : list Item.t)
    (ps : list Product.t) (newSales : list Sale.t) (orderTotal : Z)
    : LoopResult :=
  match items with
  | [] => Completed ps newSales orderTotal
  | item :: rest =>
      match list_find (λ p, Product.id p = Item.id item) ps with
      | None =>
          Aborted ps (error 400
            ("Producto " +:+ pretty (Item.id item) +:+ " no encontrado"))
      | Some (i, product) =>
          if bool_decide (Product.stock product < Item.quantity item)%Z
          then
            Aborted ps (error 400
              ("Stock insuficiente para " +:+ Product.name product
               +:+ ". Disponible: " +:+ pretty (Product.stock product)))
          else
            let saleTotal := (Product.price product * Item.quantity item)%Z in
            let newSale :=
              Sale.mk (Z.of_nat nsales + Z.of_nat (length newSales) + 1)
                      userId (Product.id product) (Item.quantity item)
                      saleTotal (now (length newSales)) in
            order_loop nsales userId rest
              (alter (Product.sub_stock (Item.quantity item)) i ps)
              (newSales ++ [newSale]) (orderTotal + saleTotal)%Z
      end
  end.

(** The [order] object of the 201 response. *)
Definition order_obj (first : Sale.t) (currentUser : User.t)
    (newSales : list Sale.t) (orderTotal : Z) : Obj :=
  [("id", JNum (Sale.id first));
   ("userId", JNum (User.id currentUser));
   ("userName", JStr (User.name currentUser));
   ("items", JArr (JObj ∘ Sale.to_obj <$> newSales));
   ("total", JNum orderTotal);
   ("date", JStr (Sale.date first))].

(** Callback of [POST /orders], run with the claim that the middleware
    decoded.  An absent [items] and an empty one get the same answer, so
    the body is the list of lines.  Reading [newSales[0]] of an empty array
    would throw and end in the [catch].  On lines with an integer id and
    quantity nothing else in the [try] throws; [raw_create_order] has the
    [catch] for a body that is not checked. *)
Definition create_order (items : list Item.t) (claim : Claim.t) : Handler :=
  λ st,
  if bool_decide (items = []) then (st, error 400 "El carrito está vacío")
  else
    match list_find (λ u, User.id u = Claim.id claim) (users st) with
    | None => (st, error 404 "Usuario no encontrado")
    | Some (_, currentUser) =>
        match order_loop (length (sales st)) (User.id currentUser) items
                         (products st) [] 0 with
        | Aborted ps r => (set_products ps st, r)
        | Completed ps newSales orderTotal =>
            let st := set_sales (sales st ++ newSales) (set_products ps st) in
            let st := write_products (write_sales st) in
            match newSales !! 0 with
            | None => (st, error 500 "Error al crear la orden")
            | Some first =>
                (st, mkResponse 201 (JObj [
                   ("message", JStr "Orden creada exitosamente");
                   ("order", JObj (order_obj first currentUser
                                             newSales orderTotal))]))
            end
        end
    end.

(** [POST /orders] *)
Definition post_orders (authHeader : option string) (items : list Item.t)
    : Handler :=
  authenticateToken authHeader (create_order items).

(** A sale of [GET /orders/my-orders], with the product's name and image. *)
Definition enrich (ps : list Product.t) (sale : Sale.t) : JSON :=
  let product := snd <$> list_find (λ p, Product.id p = Sale.productId sale) ps in
  JObj (Sale.to_obj sale ++ [
    ("productName",
     JStr (from_option Product.name "Producto no encontrado" product));
    ("productImage",
     from_option (JStr ∘ Product.image) JNull product)]).

(** [GET /orders/my-orders] *)
Definition my_orders (claim : Claim.t) : Handler := λ st,
  let userSales := filter (λ s, Sale.userId s = Claim.id claim) (sales st) in
  (st, mkResponse 200 (JArr (enrich (products st) <$> userSales))).

Definition get_my_orders (authHeader : option string) : Handler :=
  authenticateToken authHeader my_orders.

(** [GET /auth/profile] *)
Definition read_profile (claim : Claim.t) : Handler := λ st,
  match list_find (λ u, User.id u = Claim.id claim) (users st) with
  | None => (st, error 404 "Usuario no encontrado")
  | Some (_, user) => (st, mkResponse 200 (JObj (userWithoutPassword user)))
  end.

Definition get_auth_profile (authHeader : option string) : Handler :=
  authenticateToken authHeader read_profile.

(** [if (v) users[userIndex].<field> = v] *)
Definition assign_if (set : string → User.t → User.t) (v : option string)
    (u : User.t) : User.t :=
  if truthy v then set (or_empty v) u else u.

(** [PUT /auth/profile] *)
Definition update_profile (name phone address : option string)
    (claim : Claim.t) : Handler := λ st,
  match list_find (λ u, User.id u = Claim.id claim) (users st) with
  | None => (st, error 404 "Usuario no encontrado")
  | Some (userIndex, _) =>
      let us := alter (assign_if User.set_name name) userIndex (users st) in
      let us := alter (assign_if User.set_phone phone) userIndex us in
      let us := alter (assign_if User.set_address address) userIndex us in
      let st := write_users (set_users us st) in
      match users st !! userIndex with
      | None => (st, error 500 "Error al actualizar perfil")
      | Some user =>
          (st, mkResponse 200 (JObj [
             ("message", JStr "Perfil actualizado");
             ("user", JObj (userWithoutPassword user))]))
      end
  end.

Definition put_auth_profile (authHeader : option string)
    (name phone address : option string) : Handler :=
  authenticateToken authHeader (update_profile name phone address).

(** ** Administrative routes *)

(** Body shared by both versions of [PUT /products/:id]. *)
Definition update_price (id price : Z) : Handler := λ st,
  match list_find (λ p, Product.id p = id) (products st) with
  | None => (st, error 404 "Producto no encontrado")
  | Some (index, _) =>
      let ps := alter (Product.set_price price) index (products st) in
      let st := write_products (set_products ps st) in
      (st, mkResponse 200 (JObj [
         ("message", JStr "Precio actualizado");
         ("product", from_option (JObj ∘ Product.to_obj) JNull
                                 (products st !! index))]))
  end.

(** Body shared by both versions of [DELETE /users/:id]. *)
Definition remove_user (id : Z) : Handler := λ st,
  let userSales := filter (λ s, Sale.userId s = id) (sales st) in
  if bool_decide (0 < length userSales)
  then (st, error 400 "No se puede eliminar el usuario con ventas registradas")
  else
    match list_find (λ u, User.id u = id) (users st) with
    | None => (st, error 404 "Usuario no encontrado")
    | Some (index, _) =>
        let st := write_users (set_users (delete index (users st)) st) in
        (st, mkResponse 200 (JObj [
           ("message", JStr "Usuario eliminado correctamente")]))
    end.

(** [PUT /products/:id] *)
Definition put_product (authHeader : option string) (id price : Z) : Handler :=
  authenticateToken authHeader (λ claim,
    isAdmin claim (update_price id price)).

(** [DELETE /users/:id] *)
Definition delete_user (authHeader : option string) (id : Z) : Handler :=
  authenticateToken authHeader (λ claim, isAdmin claim (remove_user id)).

(** [GET /sales] *)
Definition list_sales : Handler := λ st,
  (st, mkResponse 200 (JArr (JObj ∘ Sale.to_obj <$> sales st))).

Definition get_sales (authHeader : option string) : Handler :=
  authenticateToken authHeader (λ claim, isAdmin claim list_sales).

(** [GET /] *)
Definition get_root : Handler := λ st,
  (st, mkResponse 200 (JObj [
     ("message", JStr "API E-commerce TechStore");
     ("version", JStr "2.0");
     ("endpoints", JObj [
        ("public", JArr (JStr <$> ["/products"; "/categories";
                                   "/auth/login"; "/auth/register"]));
        ("protected", JArr (JStr <$> ["/orders"; "/orders/my-orders";
                                      "/auth/profile"]));
        ("admin", JArr (JStr <$> ["/sales"; "/users/:id";
                                  "/products/:id"]))])])).

(** ** The routing table *)

Inductive Request : Type :=
  | GET_products
  | GET_product (id : Z)
  | GET_categories
  | POST_auth_register (b : RegisterBody)
  | POST_auth_login (email password : option string)
  | POST_orders (authHeader : option string) (items : list Item.t)
  | GET_my_orders (authHeader : option string)
  | GET_auth_profile (authHeader : option string)
  | PUT_auth_profile (authHeader : option string)
                     (name phone address : option string)
  | PUT_product (authHeader : option string) (id price : Z)
  | DELETE_user (authHeader : option string) (id : Z)
  | GET_sales (authHeader : option string)
  | GET_root.

Definition handle (req : Request) : Handler :=
  match req with
  | GET_products => get_products
  | GET_product id => get_product id
  | GET_categories => get_categories
  | POST_auth_register b => post_auth_register b
  | POST_auth_login email password => post_auth_login email password
  | POST_orders authHeader items => post_orders authHeader items
  | GET_my_orders authHeader => get_my_orders authHeader
  | GET_auth_profile authHeader => get_auth_profile authHeader
  | PUT_auth_profile authHeader name phone address =>
      put_auth_profile authHeader name phone address
  | PUT_product authHeader id price => put_product authHeader id price
  | DELETE_user authHeader id => delete_user authHeader id
  | GET_sales authHeader => get_sales authHeader
  | GET_root => get_root
  end.

(** ** The first version of the server (no authentication)

    [index.js] also carries the earlier server, whose catalog, price and
    user-removal routes have the bodies above without the middleware, and
    whose remaining routes follow. *)

(** The [user] object of the body of the first [POST /orders]. *)
Record Buyer : Type := mkBuyer {
  buyer_name : string;
  buyer_email : string;
  buyer_phone : string;
  buyer_address : string
}.

(** First [POST /orders]: the buyer is looked up by email and created when
    unknown, before the lines are processed. *)
Definition legacy_post_orders (user : option Buyer) (items : list Item.t)
    : Handler := λ st,
  match user with
  | None => (st, error 400 "Datos incompletos")
  | Some user =>
      if bool_decide (items = []) then (st, error 400 "Datos incompletos")
      else
        let '(st, currentUser) :=
          match list_find (λ u, User.email u = buyer_email user) (users st) with
          | Some (_, u) => (st, u)
          | None =>
              let u := User.mk (Z.of_nat (length (users st)) + 1)
                               (buyer_name user) (buyer_email user) None
                               (buyer_phone user) (buyer_address user)
                               "customer" in
              (write_users (set_users (users st ++ [u]) st), u)
          end in
        match order_loop (length (sales st)) (User.id currentUser) items
                         (products st) [] 0 with
        | Aborted ps r => (set_products ps st, r)
        | Completed ps newSales orderTotal =>
            let st := set_sales (sales st ++ newSales) (set_products ps st) in
            let st := write_products (write_sales st) in
            match newSales !! 0 with
            | None => (st, error 500 "Internal Server Error")
            | Some first =>
                (st, mkResponse 201 (JObj [
                   ("message", JStr "Orden creada exitosamente");
                   ("order", JObj (order_obj first currentUser
                                             newSales orderTotal))]))
            end
        end
  end.

(** [POST /users]: the body is stored as it comes, with a fresh id and the
    customer role. *)
Definition legacy_post_users (newUser : User.t) : Handler := λ st,
  let newUser :=
    User.set_role "customer"
      (User.set_id (Z.of_nat (length (users st)) + 1) newUser) in
  let st := write_users (set_users (users st ++ [newUser]) st) in
  (st, mkResponse 201 (JObj [
     ("message", JStr "Usuario creado");
     ("user", JObj (User.to_obj newUser))])).

(** [POST /sales]: records a sale without touching the stock. *)
Definition legacy_post_sales (userId productId quantity : Z) : Handler := λ st,
  match list_find (λ u, User.id u = userId) (users st),
        list_find (λ p, Product.id p = productId) (products st) with
  | Some _, Some (_, product) =>
      let newSale :=
        Sale.mk (Z.of_nat (length (sales st)) + 1) userId productId quantity
                (Product.price product * quantity) (now 0) in
      let st := write_sales (set_sales (sales st ++ [newSale]) st) in
      (st, mkResponse 201 (JObj [
         ("message", JStr "Venta registrada");
         ("sale", JObj (Sale.to_obj newSale))]))
  | _, _ => (st, error 400 "Usuario o producto inválido")
  end.

Inductive LegacyRequest : Type :=
  | L_GET_products
  | L_GET_product (id : Z)
  | L_GET_categories
  | L_POST_orders (user : option Buyer) (items : list Item.t)
  | L_POST_users (newUser : User.t)
  | L_POST_sales (userId productId quantity : Z)
  | L_PUT_product (id price : Z)
  | L_DELETE_user (id : Z).

Definition legacy_handle (req : LegacyRequest) : Handler :=
  match req with
  | L_GET_products => get_products
  | L_GET_product id => get_product id
  | L_GET_categories => get_categories
  | L_POST_orders user items => legacy_post_orders user items
  | L_POST_users newUser => legacy_post_users newUser
  | L_POST_sales userId productId quantity =>
      legacy_post_sales userId productId quantity
  | L_PUT_product id price => update_price id price
  | L_DELETE_user id => remove_user id
  end.

(** ** [POST /auth/register] around its [await]

    The handler looks the email up, then awaits [bcrypt.hash], and only
    then reads [users.length] and pushes the new user: other requests can
    run in between.  [register_check] is the part before the [await],
    [register_commit] the part after it, on the state found then. *)

(** [Some r]: the handler returned [r] before the [await]. *)
Definition register_check (b : RegisterBody) (st : State) : option Response :=
  if negb (truthy (reg_name b)) || negb (truthy (reg_email b))
     || negb (truthy (reg_password b))
  then Some (error 400 "Nombre, email y contraseña son requeridos")
  else
    match list_find (λ u, User.email u = or_empty (reg_email b)) (users st) with
    | Some existingUser => Some (error 400 "El email ya está registrado")
    | None => None
    end.

Definition register_commit (b : RegisterBody) : Handler := λ st,
  let hashedPassword := bcrypt_hash (or_empty (reg_password b)) in
  let newUser :=
    User.mk (Z.of_nat (length (users st)) + 1)
            (or_empty (reg_name b)) (or_empty (reg_email b))
            (Some hashedPassword)
            (or_empty (reg_phone b)) (or_empty (reg_address b))
            "customer" in
  let st := write_users (set_users (users st ++ [newUser]) st) in
  (st, mkResponse 201 (JObj [
     ("message", JStr "Usuario registrado exitosamente");
     ("user", JObj (userWithoutPassword newUser));
     ("token", JStr (token_for newUser))])).

(** ** The order route on a body that is not checked *)

(** The loop of [POST /orders], statement by statement, on such lines. *)
Fixpoint raw_order_loop (nsales : nat) (userId : Z) (lines : list RawLine)
    (ps : list RawProduct.t) (newSales : list RawSale.t) (orderTotal : JsNum)
    : RawLoopResult :=
  match lines with
  | [] => RawCompleted ps newSales orderTotal
  | LineNull :: _ => RawThrew ps
  | LineObject id quantity :: rest =>
      match id ≫= λ id, list_find (λ p, RawProduct.id p = id) ps with
      | None =>
          RawAborted ps (error 400
            ("Producto " +:+ from_option pretty "undefined" id
             +:+ " no encontrado"))
      | Some (i, product) =>
          if js_lt (RawProduct.stock product) (to_number quantity)
          then
            RawAborted ps (error 400
              ("Stock insuficiente para " +:+ RawProduct.name product
               +:+ ". Disponible: " +:+ js_show (RawProduct.stock product)))
          else
            let saleTotal :=
              js_mul (Num (RawProduct.price product)) (to_number quantity) in
            let newSale :=
              RawSale.mk (Z.of_nat nsales + Z.of_nat (length newSales) + 1)
                         userId (RawProduct.id product) quantity saleTotal
                         (now (length newSales)) in
            raw_order_loop nsales userId rest
              (alter (RawProduct.sub_stock (to_number quantity)) i ps)
              (newSales ++ [newSale]) (js_add orderTotal saleTotal)
      end
  end.

Definition raw_order_obj (first : RawSale.t) (currentUser : User.t)
    (newSales : list RawSale.t) (orderTotal : JsNum) : Obj :=
  [("id", JNum (RawSale.id first));
   ("userId", JNum (User.id currentUser));
   ("userName", JStr (User.name currentUser));
   ("items", JArr (JObj ∘ RawSale.to_obj <$> newSales));
   ("total", js_json orderTotal);
   ("date", JStr (RawSale.date first))].

(** The callback of [POST /orders] with its [try]/[catch]. *)
Definition raw_create_order (lines : list RawLine) (claim : Claim.t)
    (st : State) : RawState * Response :=
  if bool_decide (lines = [])
  then (raw_state st, error 400 "El carrito está vacío")
  else
    match list_find (λ u, User.id u = Claim.id claim) (users st) with
    | None => (raw_state st, error 404 "Usuario no encontrado")
    | Some (_, currentUser) =>
        let rs := raw_state st in
        let mutated ps :=
          mkRawState ps (raw_users rs) (raw_sales rs) (raw_products_json rs)
                     (raw_users_json rs) (raw_sales_json rs) in
        match raw_order_loop (length (sales st)) (User.id currentUser) lines
                             (raw_products rs) [] (Num 0) with
        | RawAborted ps r => (mutated ps, r)
        | RawThrew ps => (mutated ps, error 500 "Error al crear la orden")
        | RawCompleted ps newSales orderTotal =>
            let written :=
              mkRawState ps (raw_users rs) (raw_sales rs ++ newSales)
                         ps (raw_users_json rs) (raw_sales rs ++ newSales) in
            match newSales !! 0 with
            | None => (written, error 500 "Error al crear la orden")
            | Some first =>
                (written, mkResponse 201 (JObj [
                   ("message", JStr "Orden creada exitosamente");
                   ("order", JObj (raw_order_obj first currentUser
                                                 newSales orderTotal))]))
            end
        end
    end.

(** [POST /orders] behind [authenticateToken], on such a body. *)
Definition raw_post_orders (authHeader : option string)
    (lines : list RawLine) (st : State) : RawState * Response :=
  let token := bearer_token authHeader in
  if negb (truthy token) then (raw_state st, error 401 "Token no proporcionado")
  else match jwt_verify (or_empty token) with
       | None => (raw_state st, error 403 "Token inválido o expirado")
       | Some user => raw_create_order lines user st
       end.

End Server.

(** ** The storefront ([frontend/src/App.jsx])

    The cart lives in a React state that is only changed through
    [setCart(prev => ...)]: each operation is a function of the previous
    cart, and returns the next cart with the text of the [alert] that it
    raised, if any. *)

(** A line of the cart: [{ ...product, quantity }]. *)
Module CartItem.
Record t : Type := mk { product : Product.t; quantity : Z }.

Definition id (item : t) : Z := Product.id (product item).
Definition price (item : t) : Z := Product.price (product item).
Definition stock (item : t) : Z := Product.stock (product item).

(** [{ ...item, quantity: q }] *)
Definition set_quantity (q : Z) (item : t) : t := mk (product item) q.
End CartItem.

Definition max_stock_alert (stock : Z) : string :=
  "Stock máximo disponible: " +:+ pretty stock.

(** [addToCart(product)] *)
Definition addToCart (product : Product.t) (prev : list CartItem.t)
    : list CartItem.t * option string :=
  match list_find (λ item, CartItem.id item = Product.id product) prev with
  | Some (_, existing) =>
      if bool_decide (Product.stock product ≤ CartItem.quantity existing)%Z
      then (prev, Some (max_stock_alert (Product.stock product)))
      else
        ((λ item,
            if bool_decide (CartItem.id item = Product.id product)
            then CartItem.set_quantity (CartItem.quantity item + 1) item
            else item) <$> prev,
         None)
  | None => (prev ++ [CartItem.mk product 1], None)
  end.

(** [removeFromCart(productId)] *)
Definition removeFromCart (productId : Z) (prev : list CartItem.t)
    : list CartItem.t :=
  filter (λ item, CartItem.id item ≠ productId) prev.

(** [updateQuantity(productId, quantity, maxStock)] *)
Definition updateQuantity (productId quantity maxStock : Z)
    (prev : list CartItem.t) : list CartItem.t * option string :=
  if bool_decide (quantity ≤ 0)%Z then (removeFromCart productId prev, None)
  else if bool_decide (maxStock < quantity)%Z
  then (prev, Some (max_stock_alert maxStock))
  else
    ((λ item,
        if bool_decide (CartItem.id item = productId)
        then CartItem.set_quantity quantity item else item) <$> prev,
     None).

(** [clearCart()] *)
Definition clearCart (prev : list CartItem.t) : list CartItem.t := [].

(** [cart.reduce((sum, item) => sum + item.price * item.quantity, 0)] *)
Definition total (cart : list CartItem.t) : Z :=
  foldl (λ sum item, (sum + CartItem.price item * CartItem.quantity item)%Z)
        0%Z cart.

(** [cart.reduce((sum, item) => sum + item.quantity, 0)] *)
Definition itemCount (cart : list CartItem.t) : Z :=
  foldl (λ sum item, (sum + CartItem.quantity item)%Z) 0%Z cart.

(** [handleAdd] of a product card. *)
Definition handleAdd (product : Product.t) (prev : list CartItem.t)
    : list CartItem.t * option string :=
  if bool_decide (Product.stock product ≤ 0)%Z
  then (prev, Some "Producto sin stock")
  else addToCart product prev.

(** The minus and plus buttons of a line of the cart sidebar:
    [updateQuantity(item.id, item.quantity ∓ 1, item.stock)]. *)
Definition click_minus (item : CartItem.t) (prev : list CartItem.t)
    : list CartItem.t * option string :=
  updateQuantity (CartItem.id item) (CartItem.quantity item - 1)
                 (CartItem.stock item) prev.

Definition click_plus (item : CartItem.t) (prev : list CartItem.t)
    : list CartItem.t * option string :=
  updateQuantity (CartItem.id item) (CartItem.quantity item + 1)
                 (CartItem.stock item) prev.

(** What the checkout sends: [{ items: cart }] as the server reads it (the
    [id] and the [quantity] of each line), under the header
    ['Bearer ' + token]. *)
Definition checkout_items (cart : list CartItem.t) : list Item.t :=
  (λ item, Item.mk (CartItem.id item) (CartItem.quantity item)) <$> cart.

Definition checkout_header (token : string) : option string :=
  Some ("Bearer " +:+ token).

(** [filteredProducts] *)
Definition filteredProducts (selectedCategory : string)
    (products : list Product.t) : list Product.t :=
  if bool_decide (selectedCategory = "Todos") then products
  else filter (λ p, Product.category p = selectedCategory) products.

(** The operations that the cart context offers to the components. *)
Inductive CartAction : Type :=
  | AddToCart (product : Product.t)
  | RemoveFromCart (productId : Z)
  | UpdateQuantity (productId quantity maxStock : Z)
  | ClearCart.

(** The cart after an operation. *)
Definition cart_next (action : CartAction) (prev : list CartItem.t)
    : list CartItem.t :=
  match action with
  | AddToCart product => (addToCart product prev).1
  | RemoveFromCart productId => removeFromCart productId prev
  | UpdateQuantity productId quantity maxStock =>
      (updateQuantity productId quantity maxStock prev).1
  | ClearCart => clearCart prev
  end.

(** ** A test double for the external libraries, and a small shop

    Used to run the handlers on concrete requests. *)

Definition stub_verify (token : string) : option Claim.t :=
  if bool_decide (token = "t-admin")
  then Some (Claim.mk 1 "admin@techstore.com" "admin")
  else if bool_decide (token = "t-ana")
  then Some (Claim.mk 2 "ana@mail.com" "customer")
  else None.

Definition stub : Externals := {|
  bcrypt_hash password := "$2b$10$" +:+ password;
  bcrypt_compare password hash := bool_decide (hash = "$2b$10$" +:+ password);
  jwt_sign claim :=
    if bool_decide (Claim.role claim = "admin") then "t-admin" else "t-ana";
  jwt_verify := stub_verify;
  now n := "2024-05-01T10:00:0" +:+ pretty n +:+ ".000Z"
|}.

Definition admin : User.t :=
  User.mk 1 "Admin" "admin@techstore.com" (Some "$2b$10$admin123")
          "" "" "admin".
Definition ana : User.t :=
  User.mk 2 "Ana" "ana@mail.com" (Some "$2b$10$password123")
          "555-0101" "Calle 1" "customer".

Definition laptop : Product.t :=
  Product.mk 1 "Laptop" "Computadoras" 100 3 "laptop.jpg".
Definition mouse : Product.t :=
  Product.mk 2 "Mouse" "Accesorios" 50 1 "mouse.jpg".

Definition shop : State :=
  mkState [laptop; mouse] [admin; ana] []
          [laptop; mouse] [admin; ana] [].

(** The [Authorization] headers of Ana and of the administrator, and the
    claims that their tokens carry. *)
Definition ana_header : option string := Some "Bearer t-ana".
Definition admin_header : option string := Some "Bearer t-admin".
Definition ana_claim : Claim.t := Claim.mk 2 "ana@mail.com" "customer".
Definition admin_claim : Claim.t := Claim.mk 1 "admin@techstore.com" "admin".



(** Beto registers once Ana's account has been deleted from [trio]; the
    libraries as they are then: his token stands for the claim of the
    account that the registration creates. *)
Definition beto_body : RegisterBody :=
  mkRegisterBody (Some "Beto") (Some "beto@mail.com") (Some "secret")
                 None None.

Definition beto_claim : Claim.t := Claim.mk 3 "beto@mail.com" "customer".

Definition stub_beto : Externals := {|
  bcrypt_hash password := "$2b$10$" +:+ password;
  bcrypt_compare password hash := bool_decide (hash = "$2b$10$" +:+ password);
  jwt_sign claim :=
    if bool_decide (Claim.email claim = "beto@mail.com") then "t-beto"
    else if bool_decide (Claim.role claim = "admin") then "t-admin"
    else "t-ana";
  jwt_verify token :=
    if bool_decide (token = "t-beto") then Some beto_claim
    else stub_verify token;
  now n := "2024-05-02T09:00:0" +:+ pretty n +:+ ".000Z"
|}.


(** A cart of the storefront: two laptops and a mouse. *)
Definition basket : list CartItem.t :=
  [CartItem.mk laptop 2; CartItem.mk mouse 1].

(** ** What the claims speak about *)

(** The request passes [authenticateToken] and carries [claim]. *)
Definition authenticated `{Externals} (authHeader : option string)
    (claim : Claim.t) : Prop :=
  ∃ token, bearer_token authHeader = Some token ∧ token ≠ ""
           ∧ jwt_verify token = Some claim.

(** [products.find(p => p.id === id)] *)
Definition find_product (id : Z) (ps : list Product.t) : option Product.t :=
  snd <$> list_find (λ p, Product.id p = id) ps.

(** Position of the product that [find] returns for [id]. *)
Definition product_index (id : Z) (ps : list Product.t) : option nat :=
  fst <$> list_find (λ p, Product.id p = id) ps.

(** Total quantity that the lines of a cart ask of product [id]. *)
Definition ordered (id : Z) (items : list Item.t) : Z :=
  foldr (λ item acc,
           if bool_decide (Item.id item = id)
           then (Item.quantity item + acc)%Z else acc) 0%Z items.

(** Sum of the totals of a list of sale lines. *)
Definition sum_totals (ss : list Sale.t) : Z :=
  foldr (λ s acc, (Sale.total s + acc)%Z) 0%Z ss.

Definition stock_nonneg (st : State) : Prop :=
  Forall (λ p, (0 ≤ Product.stock p)%Z) (products st).

(** The object [o] shows user [u] without the password. *)
Definition shows_without_password (o : Obj) (u : User.t) : Prop :=
("password" ∉ o.*1)
  ∧ ∀ key, key ≠ "password" → get key o = get key (User.to_obj u).

(** The [products] array when the loop of [POST /orders] is left. *)
Definition loop_products (r : LoopResult) : list Product.t :=
  match r with
  | Aborted ps _ => ps
  | Completed ps _ _ => ps
  end.

(** The sale line that the [k]-th line of a cart gives rise to, when
    [nsales] sales were recorded before and [p] is the product ordered. *)
Definition line_sale `{Externals} (nsales : nat) (userId : Z) (k : nat)
    (item : Item.t) (p : Product.t) : Sale.t :=
  Sale.mk (Z.of_nat nsales + Z.of_nat k + 1) userId (Item.id item)
          (Item.quantity item) (Product.price p * Item.quantity item) (now k).

(** Line [k] of the cart asks for a known product, and for no more than
    the earlier lines of the same cart have left of it. *)
Definition line_in_stock (items : list Item.t) (ps : list Product.t)
    (k : nat) (item : Item.t) (p : Product.t) : Prop :=
  find_product (Item.id item) ps = Some p
  ∧ (ordered (Item.id item) (take k items) + Item.quantity item
     ≤ Product.stock p)%Z.

(** Product [p], at position [j] of [ps], once the cart has been served:
    the product that [find] returns for its id has given the quantity
    ordered, any other is as before. *)
Definition served (items : list Item.t) (ps : list Product.t)
    (j : nat) (p : Product.t) : Product.t :=
  if decide (product_index (Product.id p) ps = Some j)
  then Product.sub_stock (ordered (Product.id p) items) p
  else p.



(** ** What the further properties speak about *)

(** The [Authorization] header of a request to a route behind
    [authenticateToken]. *)
Definition protected_header (req : Request) : option (option string) :=
  match req with
  | POST_orders authHeader _ | GET_my_orders authHeader
  | GET_auth_profile authHeader | PUT_auth_profile authHeader _ _ _
  | PUT_product authHeader _ _ | DELETE_user authHeader _
  | GET_sales authHeader => Some authHeader
  | _ => None
  end.

(** The same for a route that is also behind [isAdmin]. *)
Definition admin_route_header (req : Request) : option (option string) :=
  match req with
  | PUT_product authHeader _ _ | DELETE_user authHeader _
  | GET_sales authHeader => Some authHeader
  | _ => None
  end.

(** The string contains a space. *)
Fixpoint has_space (s : string) : bool :=
  match s with
  | EmptyString => false
  | String c rest => bool_decide (c = " "%char) || has_space rest
  end.

(** Requests handled one at a time, each to its response before the next
    starts, and each with the libraries and the clock of its moment. *)
Definition run (requests : list (Externals * Request)) (st : State) : State :=
  foldl (λ st request, (@handle request.1 request.2 st).1) st requests.


(** Two records of the same account: same id, email, password and role. *)
Definition same_account (u' u : User.t) : Prop :=
  User.id u' = User.id u ∧ User.email u' = User.email u
  ∧ User.password u' = User.password u ∧ User.role u' = User.role u.

(** No two users have the same email. *)
Definition emails_unique (st : State) : Prop :=
  NoDup (User.email <$> users st).

(** The sale at position [i] (from 0) has id [i + 1]. *)
Definition sale_ids_sequential (st : State) : Prop :=
  ∀ i s, sales st !! i = Some s → Sale.id s = (Z.of_nat i + 1)%Z.


(** The elements of a response whose body is an array. *)
Definition elements (r : Response) : list JSON :=
  match body r with
  | JArr elems => elems
  | _ => []
  end.

(** A cart with one line per product and at least one unit per line. *)
Definition cart_ok (cart : list CartItem.t) : Prop :=
  NoDup (CartItem.id <$> cart)
  ∧ ∀ item, item ∈ cart → (1 ≤ CartItem.quantity item)%Z.

(** No line asks for more than the stock recorded in the line. *)
Definition cart_within_stock (cart : list CartItem.t) : Prop :=
  ∀ item, item ∈ cart → (CartItem.quantity item ≤ CartItem.stock item)%Z.

(** The typed outcome of the loop, seen as an outcome on a raw body. *)
Definition raw_loop_result (r : LoopResult) : RawLoopResult :=
  match r with
  | Aborted ps r => RawAborted (RawProduct.of_product <$> ps) r
  | Completed ps newSales orderTotal =>
      RawCompleted (RawProduct.of_product <$> ps)
                   (RawSale.of_sale <$> newSales) (Num orderTotal)
  end.

(** Every stock is a number, and not a negative one. *)
Definition raw_stock_nonneg (rs : RawState) : Prop :=
  Forall (λ p, ∃ z, RawProduct.stock p = Num z ∧ (0 ≤ z)%Z) (raw_products rs).

(** The products as the loop leaves them, however it ends. *)
Definition raw_loop_products (r : RawLoopResult) : list RawProduct.t :=
  match r with
  | RawAborted ps _ | RawThrew ps | RawCompleted ps _ _ => ps
  end.

(** The line is [null], or an object whose quantity is an integer. *)
Definition quantity_given (line : RawLine) : Prop :=
  match line with
  | LineNull => True
  | LineObject _ quantity => is_Some quantity
  end.

Section Properties.
Context `{Externals}.

(** ** Objects *)

Lemma omit_keys key (o : Obj) : key ∉ (omit key o).*1.
Proof.
  unfold omit. intros (kv & -> & Hin)%list_elem_of_fmap.
  apply list_elem_of_filter in Hin as [Hne _]. by apply Hne.
Qed.

Lemma get_omit_ne key key' (o : Obj) :
  key' ≠ key → get key' (omit key o) = get key' o.
Proof.
  intros Hne. unfold get, omit.
  induction o as [|[k v] o IH]; [done|].
  rewrite filter_cons. simpl.
  destruct (decide (k ≠ key)) as [Hk|Hk]; simpl.
  - destruct (decide (k = key')); [done|].
    destruct (list_find _ (filter _ o)) as [[??]|],
             (list_find _ o) as [[??]|]; simpl in *; congruence.
  - apply dec_stable in Hk. subst k.
    destruct (decide (key = key')); [congruence|].
    destruct (list_find _ (filter _ o)) as [[??]|],
             (list_find _ o) as [[??]|]; simpl in *; congruence.
Qed.

Lemma userWithoutPassword_shows u :
  shows_without_password (userWithoutPassword u) u.
Proof.
  split; [apply omit_keys|]. intros key Hne. by apply get_omit_ne.
Qed.

(** ** Arrays *)

(** Updating one element by a function that does not change what [find]
    looks at leaves the position found unchanged. *)
Lemma list_find_alter {A} (P : A → Prop) `{!∀ x, Decision (P x)}
    (f : A → A) (i : nat) (l : list A) :
  (∀ x, P (f x) ↔ P x) →
  list_find P (alter f i l)
  = (λ jx, (jx.1, if decide (i = jx.1) then f jx.2 else jx.2))
    <$> list_find P l.
Proof.
  intros Hf. revert i. induction l as [|x l IH]; intros i; [done|].
  destruct i as [|i]; simpl.
  - destruct (decide (P (f x))) as [HP|HP], (decide (P x)) as [HP'|HP'].
    + done.
    + destruct HP'. by apply Hf.
    + destruct HP. by apply Hf.
    + destruct (list_find P l) as [[j y]|]; done.
  - destruct (decide (P x)); [done|].
    change (list_alter f i l) with (alter f i l). rewrite IH. destruct (list_find P l) as [[j y]|]; simpl; [|done].
    do 2 f_equal. destruct (decide (i = j)), (decide (S i = S j)); done || lia.
Qed.

Lemma list_find_index_lookup {A} (P : A → Prop) `{!∀ x, Decision (P x)}
    (l : list A) i x :
  list_find P l = Some (i, x) → l !! i = Some x ∧ P x.
Proof. intros (? & ? & _)%list_find_Some. done. Qed.

(** ** [new Set] *)

Lemma foldl_set_add_elem (values seen : list string) v :
  v ∈ foldl set_add seen values ↔ v ∈ seen ∨ v ∈ values.
Proof.
  revert seen. induction values as [|w values IH]; intros seen; simpl.
  - rewrite elem_of_nil. tauto.
  - rewrite IH, elem_of_cons. unfold set_add.
    case_bool_decide; [|rewrite elem_of_app, list_elem_of_singleton];
      intuition (subst; auto).
Qed.

Lemma foldl_set_add_NoDup (values seen : list string) :
  NoDup seen → NoDup (foldl set_add seen values).
Proof.
  revert seen. induction values as [|w values IH]; intros seen Hseen; [done|].
  simpl. apply IH. unfold set_add. case_bool_decide; [done|].
  apply NoDup_app. split_and!; [done| |apply NoDup_singleton].
  intros x Hx ->%list_elem_of_singleton. done.
Qed.

(** ** Products under [product.stock -= quantity] *)

Lemma sub_stock_0 p : Product.sub_stock 0 p = p.
Proof. destruct p. unfold Product.sub_stock. simpl. f_equal. lia. Qed.

Lemma sub_stock_sub_stock q q' p :
  Product.sub_stock q' (Product.sub_stock q p) = Product.sub_stock (q + q') p.
Proof. unfold Product.sub_stock. simpl. f_equal. lia. Qed.

Lemma list_find_sub_stock id q i ps :
  list_find (λ p, Product.id p = id) (alter (Product.sub_stock q) i ps)
  = (λ jx, (jx.1, if decide (i = jx.1) then Product.sub_stock q jx.2
                  else jx.2))
    <$> list_find (λ p, Product.id p = id) ps.
Proof. by apply list_find_alter. Qed.

Lemma product_index_sub_stock id q i ps :
  product_index id (alter (Product.sub_stock q) i ps) = product_index id ps.
Proof.
  unfold product_index. rewrite list_find_sub_stock.
  by destruct (list_find _ ps) as [[??]|].
Qed.

(** The product that a later line finds, after an earlier line took
    [q] units of the product with id [id0], found at position [i]. *)
Lemma find_product_sub_stock id id0 q i p0 ps :
  list_find (λ p, Product.id p = id0) ps = Some (i, p0) →
  find_product id (alter (Product.sub_stock q) i ps)
  = (λ p, if decide (id = id0) then Product.sub_stock q p else p)
    <$> find_product id ps.
Proof.
  intros Hfind0. unfold find_product. rewrite list_find_sub_stock.
  destruct (list_find (λ p, Product.id p = id) ps) as [[j p]|] eqn:Hfind;
    [simpl|done].
  f_equal. destruct (decide (i = j)) as [->|Hij], (decide (id = id0)) as [->|Hid];
    try done.
  - apply list_find_index_lookup in Hfind0 as [? ?], Hfind as [? ?]. congruence.
  - congruence.
Qed.

(** ** The loop of [POST /orders] *)

Lemma order_loop_nonneg items : ∀ nsales userId ps newSales orderTotal,
  Forall (λ p, (0 ≤ Product.stock p)%Z) ps →
  Forall (λ p, (0 ≤ Product.stock p)%Z)
         (loop_products (order_loop nsales userId items ps newSales orderTotal)).
Proof.
  induction items as [|item rest IH]; intros nsales userId ps acc tot Hps;
    [done|].
  simpl. destruct (list_find _ ps) as [[i product]|] eqn:Hfind; [|done].
  case_bool_decide as Hstock; [done|].
  apply IH. apply list_find_index_lookup in Hfind as [Hi _].
  apply Forall_alter; [done|].
  intros p Hp. simpl. assert (p = product) as -> by congruence. lia.
Qed.

Lemma ordered_cons id item items :
  ordered id (item :: items)
  = ((if decide (Item.id item = id) then Item.quantity item else 0)
     + ordered id items)%Z.
Proof. simpl. case_bool_decide; case_decide; done. Qed.

(** What is known when the loop runs to its end. *)
Lemma order_loop_Completed items :
  ∀ nsales userId ps newSales orderTotal ps' newSales' orderTotal',
  order_loop nsales userId items ps newSales orderTotal
    = Completed ps' newSales' orderTotal' →
  ∃ created,
    newSales' = newSales ++ created
    ∧ orderTotal' = (orderTotal + sum_totals created)%Z
    ∧ length created = length items
    ∧ (∀ k item, items !! k = Some item →
         ∃ p, line_in_stock items ps k item p
              ∧ created !! k
                = Some (line_sale nsales userId (length newSales + k) item p))
    ∧ (∀ j p, ps !! j = Some p → ps' !! j = Some (served items ps j p))
    ∧ length ps' = length ps.
Proof.
  induction items as [|item rest IH];
    intros nsales userId ps acc tot ps' acc' tot' Hloop.
  { simpl in Hloop. injection Hloop as <- <- <-. exists [].
    rewrite app_nil_r. split_and!; [done|simpl; lia|done|done| |done].
    intros j p Hj. rewrite Hj. unfold served. simpl.
    case_decide; [by rewrite sub_stock_0|done]. }
  simpl in Hloop.
  destruct (list_find _ ps) as [[i product]|] eqn:Hfind; [|done].
  case_bool_decide as Hstock; [done|].
  apply IH in Hloop as (created & -> & -> & Hlen & Hlines & Hps & Hlenps).
  pose proof Hfind as [Hi Hid]%list_find_index_lookup. simpl in Hid.
  eexists (_ :: created). split_and!.
  - by rewrite <- app_assoc.
  - simpl. lia.
  - simpl. by rewrite Hlen.
  - intros [|k] item' Hk; simpl in Hk.
    + injection Hk as <-. exists product. split.
      * split; [unfold find_product; by rewrite Hfind|simpl; lia].
      * simpl. unfold line_sale. rewrite Nat.add_0_r, Hid. done.
    + destruct (Hlines k item' Hk) as (p1 & [Hp1 Hle] & Hsale).
      erewrite find_product_sub_stock in Hp1 by done.
      destruct (find_product (Item.id item') ps) as [p|] eqn:Hp; [|done].
      simpl in Hp1. injection Hp1 as <-. exists p. split.
      * split; [done|]. rewrite firstn_cons, ordered_cons.
        rewrite <- Hid in Hle |- *.
        repeat case_decide; simpl in Hle; try congruence; lia.
      * simpl. rewrite Hsale. f_equal. unfold line_sale.
        rewrite length_app. simpl.
        replace (length acc + 1 + k) with (length acc + S k) by lia.
        by case_decide.
  - intros j p Hj.
    assert (alter (Product.sub_stock (Item.quantity item)) i ps !! j
            = Some (if decide (i = j)
                    then Product.sub_stock (Item.quantity item) p else p))
      as Hj1.
    { rewrite list_lookup_alter. case_decide; [subst; by rewrite Hj|done]. }
    rewrite (Hps _ _ Hj1). f_equal. unfold served.
    assert (Product.id (if decide (i = j)
                        then Product.sub_stock (Item.quantity item) p else p)
            = Product.id p) as -> by (by case_decide).
    rewrite product_index_sub_stock, ordered_cons.
    assert (product_index (Item.id item) ps = Some i) as Hidx
      by (unfold product_index; by rewrite Hfind).
    destruct (decide (i = j)) as [->|Hij].
    + assert (p = product) as -> by congruence. rewrite Hid, Hidx.
      rewrite !decide_True by done. apply sub_stock_sub_stock.
    + destruct (decide (product_index (Product.id p) ps = Some j)) as [Hpj|];
        [|done].
      rewrite decide_False; [f_equal; lia|]. intros Heq.
      rewrite <- Heq in Hpj. congruence.
  - by rewrite Hlenps, length_alter.
Qed.

(** The loop runs to its end when every line is in stock. *)
Lemma order_loop_in_stock items : ∀ nsales userId ps newSales orderTotal,
  (∀ k item, items !! k = Some item → ∃ p, line_in_stock items ps k item p) →
  ∃ ps' newSales' orderTotal',
    order_loop nsales userId items ps newSales orderTotal
    = Completed ps' newSales' orderTotal'.
Proof.
  induction items as [|item rest IH]; intros nsales userId ps acc tot Hok;
    [by eexists _, _, _|].
  simpl. destruct (Hok 0 item eq_refl) as (p & Hp & Hle).
  unfold find_product in Hp.
  destruct (list_find _ ps) as [[i product]|] eqn:Hfind; [|done].
  simpl in Hp, Hle. injection Hp as ->.
  rewrite bool_decide_eq_false_2 by lia.
  apply IH. intros k item' Hk.
  destruct (Hok (S k) item' Hk) as (p' & Hp' & Hle').
  eexists. split.
  - erewrite find_product_sub_stock by done. rewrite Hp'. done.
  - rewrite firstn_cons, ordered_cons in Hle'.
    repeat case_decide; simpl; try congruence; lia.
Qed.

(** ** The middleware *)

Lemma authenticateToken_pass authHeader claim next st :
  authenticated authHeader claim →
  authenticateToken authHeader next st = next claim st.
Proof.
  intros (token & Htok & Hne & Hverify). unfold authenticateToken.
  rewrite Htok. simpl. rewrite bool_decide_eq_false_2 by done. simpl.
  by rewrite Hverify.
Qed.

Lemma authenticateToken_cases authHeader next st :
  (∃ claim, authenticated authHeader claim
            ∧ authenticateToken authHeader next st = next claim st)
  ∨ authenticateToken authHeader next st
    = (st, error 401 "Token no proporcionado")
  ∨ authenticateToken authHeader next st
    = (st, error 403 "Token inválido o expirado").
Proof.
  unfold authenticateToken.
  destruct (bearer_token authHeader) as [token|] eqn:Htok; simpl; [|by auto].
  case_bool_decide as Hne; simpl; [by auto|].
  destruct (jwt_verify token) as [claim|] eqn:Hverify; [|by auto].
  left. exists claim. split; [|done]. by exists token.
Qed.

(** ** [POST /orders] *)

(** Every early [return] of the loop answers 400. *)
Lemma order_loop_Aborted_status items :
  ∀ nsales userId ps newSales orderTotal ps' r,
  order_loop nsales userId items ps newSales orderTotal = Aborted ps' r →
  status r = 400.
Proof.
  induction items as [|item rest IH]; intros nsales userId ps acc tot ps' r;
    [done|].
  simpl. destruct (list_find _ ps) as [[??]|]; [|by intros [= <- <-]].
  case_bool_decide; [by intros [= <- <-]|]. apply IH.
Qed.

(** A 201 answer means that the request was authenticated, the buyer
    exists and the loop over the lines ran to its end. *)
Lemma post_orders_201 authHeader items st st' r :
  post_orders authHeader items st = (st', r) →
  status r = 201 →
  ∃ claim index currentUser ps newSales orderTotal first,
    authenticated authHeader claim
    ∧ items ≠ []
    ∧ list_find (λ u, User.id u = Claim.id claim) (users st)
      = Some (index, currentUser)
    ∧ order_loop (length (sales st)) (User.id currentUser) items
                 (products st) [] 0 = Completed ps newSales orderTotal
    ∧ newSales !! 0 = Some first
    ∧ st' = write_products (write_sales
              (set_sales (sales st ++ newSales) (set_products ps st)))
    ∧ body r = JObj [
        ("message", JStr "Orden creada exitosamente");
        ("order", JObj (order_obj first currentUser newSales orderTotal))].
Proof.
  unfold post_orders. intros Hreq Hstatus.
  destruct (authenticateToken_cases authHeader (create_order items) st)
    as [(claim & Hauth & Heq)|[Heq|Heq]];
    rewrite Heq in Hreq; clear Heq;
    [|injection Hreq as <- <-; done..].
  unfold create_order in Hreq.
  case_bool_decide as Hitems; [injection Hreq as <- <-; done|].
  destruct (list_find _ (users st)) as [[index currentUser]|] eqn:Huser;
    [|injection Hreq as <- <-; done].
  destruct (order_loop _ _ _ _ _ _) as [ps r'|ps newSales orderTotal] eqn:Hloop.
  { injection Hreq as <- <-. apply order_loop_Aborted_status in Hloop.
    congruence. }
  destruct (newSales !! 0) as [first|] eqn:Hfirst;
    injection Hreq as <- <-; [|done].
  by exists claim, index, currentUser, ps, newSales, orderTotal, first.
Qed.

(** An order that is not answered 201 appends no sale and touches no
    user, whatever it did to the stock. *)
Lemma post_orders_rejected authHeader items st :
  status (post_orders authHeader items st).2 ≠ 201 →
  sales (post_orders authHeader items st).1 = sales st
  ∧ users (post_orders authHeader items st).1 = users st.
Proof.
  unfold post_orders.
  destruct (authenticateToken_cases authHeader (create_order items) st)
    as [(claim & _ & ->)|[->| ->]]; [|done..].
  unfold create_order. case_bool_decide; [done|].
  destruct (list_find _ (users st)) as [[??]|]; [|done].
  destruct (order_loop _ _ _ _ _ _) as [ps r|ps newSales orderTotal] eqn:Hloop;
    [done|].
  apply order_loop_Completed in Hloop as (created & -> & _ & Hlen & _).
  destruct created; [|done]. destruct items; done.
Qed.

Lemma served_id items ps j p : Product.id (served items ps j p) = Product.id p.
Proof. unfold served. by case_decide. Qed.

(** From positions to ids: the product that [find] returns for an id has
    given exactly the quantity ordered of that id. *)
Lemma served_find_product items ps ps' id p :
  (∀ j p, ps !! j = Some p → ps' !! j = Some (served items ps j p)) →
  length ps' = length ps →
  find_product id ps = Some p →
  find_product id ps' = Some (Product.sub_stock (ordered id items) p).
Proof.
  intros Hserved Hlen. unfold find_product.
  destruct (list_find _ ps) as [[j p0]|] eqn:Hfind; [|done].
  intros [= ->].
  pose proof Hfind as (Hj & Hid & Hleast)%list_find_Some. simpl in Hid.
  assert (list_find (λ p, Product.id p = id) ps'
          = Some (j, Product.sub_stock (ordered id items) p)) as ->; [|done].
  apply list_find_Some. split_and!.
  - rewrite (Hserved _ _ Hj). unfold served, product_index.
    rewrite Hid, Hfind. simpl. by rewrite decide_True.
  - done.
  - intros k y Hk Hkj.
    destruct (lookup_lt_is_Some_2 ps k) as [pk Hpk].
    { apply lookup_lt_Some in Hj. lia. }
    rewrite (Hserved _ _ Hpk) in Hk. injection Hk as <-.
    rewrite served_id. by eapply Hleast.
Qed.

(** [C4] In a successful order, the [i]-th sale line created (from 0) gets
    the id [number of sales before the order + i + 1]; the ids created by
    one order are therefore pairwise distinct; and the id and the date of
    the order in the response are those of the first line created. *)
Theorem order_sale_ids authHeader items st st' r :
  handle (POST_orders authHeader items) st = (st', r) →
  status r = 201 →
  ∃ newSales first,
    sales st' = sales st ++ newSales
    ∧ length newSales = length items
    ∧ (∀ i s, newSales !! i = Some s →
         Sale.id s = (Z.of_nat (length (sales st)) + Z.of_nat i + 1)%Z)
    ∧ NoDup (Sale.id <$> newSales)
    ∧ newSales !! 0 = Some first
    ∧ field "order" (body r) ≫= field "items"
      = Some (JArr (JObj ∘ Sale.to_obj <$> newSales))
    ∧ field "order" (body r) ≫= field "id" = Some (JNum (Sale.id first))
    ∧ field "order" (body r) ≫= field "date" = Some (JStr (Sale.date first)).
Proof.
  simpl. intros Hreq Hstatus.
  destruct (post_orders_201 _ _ _ _ _ Hreq Hstatus)
    as (claim & index & currentUser & ps & newSales & orderTotal & first
        & _ & _ & _ & Hloop & Hfirst & -> & Hbody).
  apply order_loop_Completed in Hloop
    as (created & -> & _ & Hlen & Hlines & _ & _).
  simpl in *.
  assert (∀ i s, created !! i = Some s →
            Sale.id s = (Z.of_nat (length (sales st)) + Z.of_nat i + 1)%Z)
    as Hids.
  { intros i s Hi.
    destruct (lookup_lt_is_Some_2 items i) as [item Hitem].
    { apply lookup_lt_Some in Hi. lia. }
    destruct (Hlines i item Hitem) as (p & _ & Hsale).
    rewrite Hsale in Hi. injection Hi as <-. done. }
  exists created, first. rewrite Hbody. split_and!; try done.
  apply NoDup_alt. intros i j id.
  rewrite !list_lookup_fmap.
  destruct (created !! i) as [si|] eqn:Hi; [|done].
  destruct (created !! j) as [sj|] eqn:Hj; [|done].
  simpl. intros [= <-] [= Heq].
  rewrite (Hids _ _ Hi), (Hids _ _ Hj) in Heq. lia.
Qed.

(** [C2, amended] A cart with at least one line, sent by an authenticated
    buyer whose account exists, in which every line names a known product
    and asks for no more than the stock that the earlier lines of the same
    cart leave of it, is accepted with 201.  One sale line is appended per
    cart line, in order, with that line's product, quantity and
    [price × quantity]; the total of the response is the sum of these line
    totals; the product that [find] returns for an id has its stock lowered
    by exactly the quantity ordered of it, and nothing else in [products]
    changes. *)
Theorem order_in_stock_is_served authHeader claim items st :
  authenticated authHeader claim →
  (∃ u, u ∈ users st ∧ User.id u = Claim.id claim) →
  items ≠ [] →
  (∀ k item, items !! k = Some item →
     ∃ p, line_in_stock items (products st) k item p) →
  ∃ st' r newSales,
    handle (POST_orders authHeader items) st = (st', r)
    ∧ status r = 201
    ∧ sales st' = sales st ++ newSales
    ∧ length newSales = length items
    ∧ (∀ k item, items !! k = Some item →
         ∃ s p, newSales !! k = Some s
                ∧ find_product (Item.id item) (products st) = Some p
                ∧ Sale.productId s = Item.id item
                ∧ Sale.quantity s = Item.quantity item
                ∧ Sale.total s = (Product.price p * Item.quantity item)%Z)
    ∧ field "order" (body r) ≫= field "total"
      = Some (JNum (sum_totals newSales))
    ∧ (∀ id p, find_product id (products st) = Some p →
         find_product id (products st')
         = Some (Product.sub_stock (ordered id items) p))
    ∧ (∀ j p, products st !! j = Some p →
         products st' !! j = Some (served items (products st) j p))
    ∧ length (products st') = length (products st).
Proof.
  intros Hauth (u & Hu & Huid) Hitems Hstock. simpl. unfold post_orders.
  rewrite (authenticateToken_pass _ _ _ _ Hauth). unfold create_order.
  rewrite bool_decide_eq_false_2 by done.
  destruct (list_find_elem_of (λ u, User.id u = Claim.id claim) _ _ Hu Huid)
    as [[index currentUser] ->].
  destruct (order_loop_in_stock items (length (sales st)) (User.id currentUser)
              (products st) [] 0 Hstock) as (ps & newSales & tot & Hloop).
  rewrite Hloop.
  apply order_loop_Completed in Hloop
    as (created & -> & -> & Hlen & Hlines & Hps & Hlenps).
  simpl in *.
  destruct created as [|first created];
    [destruct items; [done|simpl in Hlen; lia]|].
  simpl. eexists _, _, (first :: created). split_and!; try done.
  - intros k item Hk. destruct (Hlines k item Hk) as (p & [Hp _] & Hsale).
    eexists _, p. split; [exact Hsale|]. done.
  - intros id p Hp. by eapply served_find_product.
Qed.

(** ** Stock never goes below zero *)

Lemma authenticateToken_preserves (Φ : State → Prop) authHeader next st :
  Φ st → (∀ claim, Φ (next claim st).1) →
  Φ (authenticateToken authHeader next st).1.
Proof.
  intros Hst Hnext.
  destruct (authenticateToken_cases authHeader next st)
    as [(claim & _ & ->)|[->| ->]]; auto.
Qed.

Lemma isAdmin_preserves (Φ : State → Prop) claim next st :
  Φ st → Φ (next st).1 → Φ (isAdmin claim next st).1.
Proof. intros Hst Hnext. unfold isAdmin. by case_bool_decide. Qed.

Lemma create_order_nonneg items claim st :
  stock_nonneg st → stock_nonneg (create_order items claim st).1.
Proof.
  intros Hst. unfold create_order. case_bool_decide; [done|].
  destruct (list_find _ (users st)) as [[? currentUser]|]; [|done].
  pose proof (order_loop_nonneg items (length (sales st)) (User.id currentUser)
                (products st) [] 0 Hst) as Hloop.
  destruct (order_loop _ _ _ _ _ _) as [ps r|ps newSales orderTotal];
    [done|].
  by destruct (newSales !! 0).
Qed.

Lemma update_price_nonneg id price st :
  stock_nonneg st → stock_nonneg (update_price id price st).1.
Proof.
  intros Hst. unfold update_price.
  destruct (list_find _ (products st)) as [[index ?]|]; [|done].
  unfold stock_nonneg. simpl. apply Forall_lookup. intros j p.
  rewrite list_lookup_alter. case_decide; [subst j|].
  - destruct (products st !! index) as [p0|] eqn:Hp0; [|done].
    intros [= <-]. simpl. by eapply (Forall_lookup_1 _ _ _ _ Hst).
  - by eapply (Forall_lookup_1 _ _ _ _ Hst).
Qed.

Lemma remove_user_products id st :
  products (remove_user id st).1 = products st.
Proof.
  unfold remove_user. case_bool_decide; [done|].
  by destruct (list_find _ (users st)) as [[??]|].
Qed.

(** On requests whose cart lines carry an integer id and quantity, the
    routes of the server and of its first version keep every stock at or
    above zero. *)
Lemma handlers_keep_stock_nonneg st :
  stock_nonneg st →
  (∀ req, stock_nonneg (handle req st).1)
  ∧ (∀ req, stock_nonneg (legacy_handle req st).1).
Proof.
  intros Hst. split; intros req; destruct req; simpl; try done;
    unfold post_orders, get_my_orders, get_auth_profile, put_auth_profile,
           put_product, delete_user, get_sales.
  - (* GET /products/:id *)
    unfold get_product. by destruct (list_find _ (products st)) as [[??]|].
  - (* POST /auth/register *)
    unfold post_auth_register. destruct (_ || _); [done|].
    by destruct (list_find _ (users st)).
  - (* POST /auth/login *)
    unfold post_auth_login. destruct (_ || _); [done|].
    destruct (list_find _ (users st)) as [[? user]|]; [|done].
    destruct (User.password user); [|done]. by destruct (negb _).
  - (* POST /orders *)
    apply (authenticateToken_preserves stock_nonneg); [done|].
    intros claim. by apply create_order_nonneg.
  - (* GET /orders/my-orders *)
    by apply (authenticateToken_preserves stock_nonneg).
  - (* GET /auth/profile *)
    apply (authenticateToken_preserves stock_nonneg); [done|]. intros claim.
    unfold read_profile. by destruct (list_find _ (users st)) as [[??]|].
  - (* PUT /auth/profile *)
    apply (authenticateToken_preserves stock_nonneg); [done|]. intros claim.
    unfold update_profile.
    destruct (list_find _ (users st)) as [[userIndex ?]|]; [|done].
    simpl. by destruct (_ !! userIndex).
  - (* PUT /products/:id *)
    apply (authenticateToken_preserves stock_nonneg); [done|]. intros claim.
    apply (isAdmin_preserves stock_nonneg); [done|]. by apply update_price_nonneg.
  - (* DELETE /users/:id *)
    apply (authenticateToken_preserves stock_nonneg); [done|]. intros claim.
    apply (isAdmin_preserves stock_nonneg); [done|].
    unfold stock_nonneg. by rewrite remove_user_products.
  - (* GET /sales *)
    apply (authenticateToken_preserves stock_nonneg); [done|]. intros claim.
    by apply (isAdmin_preserves stock_nonneg).
  - (* GET /products/:id, first version *)
    unfold get_product. by destruct (list_find _ (products st)) as [[??]|].
  - (* POST /orders, first version *)
    unfold legacy_post_orders. destruct user as [user|]; [|done].
    case_bool_decide; [done|].
    destruct (list_find _ (users st)) as [[? u]|].
    + pose proof (order_loop_nonneg items (length (sales st)) (User.id u)
                    (products st) [] 0 Hst) as Hloop.
      destruct (order_loop _ _ _ _ _ _) as [ps r|ps newSales orderTotal];
        [done|].
      by destruct (newSales !! 0).
    + simpl.
      pose proof (order_loop_nonneg items (length (sales st))
                    (Z.of_nat (length (users st)) + 1)
                    (products st) [] 0 Hst) as Hloop.
      destruct (order_loop _ _ _ _ _ _) as [ps r|ps newSales orderTotal];
        [done|].
      by destruct (newSales !! 0).
  - (* POST /sales, first version *)
    unfold legacy_post_sales.
    destruct (list_find _ (users st)) as [[??]|]; [|done].
    by destruct (list_find _ (products st)) as [[??]|].
  - (* PUT /products/:id, first version *)
    by apply update_price_nonneg.
  - (* DELETE /users/:id, first version *)
    unfold stock_nonneg. by rewrite remove_user_products.
Qed.

(** ** The order route on typed and on unchecked lines *)

Lemma list_find_of_product id (ps : list Product.t) :
  list_find (λ p, RawProduct.id p = id) (RawProduct.of_product <$> ps)
  = prod_map (λ i, i) RawProduct.of_product
    <$> list_find (λ p, Product.id p = id) ps.
Proof.
  induction ps as [|p ps IH]; [done|]. simpl.
  destruct (decide (Product.id p = id)); [done|].
  change (list_fmap _ _ _ ?l) with (RawProduct.of_product <$> l).
  rewrite IH. by destruct (list_find _ ps) as [[??]|].
Qed.

(** On lines that carry an integer id and quantity, and stocks that are
    numbers, the loop on unchecked lines does what the typed loop does. *)
Lemma raw_order_loop_typed items : ∀ nsales userId ps newSales orderTotal,
  raw_order_loop nsales userId (raw_line <$> items)
                 (RawProduct.of_product <$> ps)
                 (RawSale.of_sale <$> newSales) (Num orderTotal)
  = raw_loop_result (order_loop nsales userId items ps newSales orderTotal).
Proof.
  induction items as [|item rest IH]; intros nsales userId ps acc tot; [done|].
  rewrite fmap_cons. simpl. rewrite list_find_of_product.
  destruct (list_find _ ps) as [[i product]|]; simpl; [|done].
  case_bool_decide; [done|].
  rewrite length_fmap.
  rewrite <- (IH nsales userId
                 (alter (Product.sub_stock (Item.quantity item)) i ps)
                 (acc ++ [Sale.mk (Z.of_nat nsales + Z.of_nat (length acc) + 1)
                                  userId (Product.id product)
                                  (Item.quantity item)
                                  (Product.price product * Item.quantity item)
                                  (now (length acc))])
                 (tot + Product.price product * Item.quantity item)%Z).
  rewrite fmap_app. f_equal.
  symmetry. apply list_fmap_alter, Forall_forall. by intros p _.
Qed.

Lemma raw_create_order_typed items claim st :
  raw_create_order (raw_line <$> items) claim st
  = (raw_state (create_order items claim st).1, (create_order items claim st).2).
Proof.
  unfold raw_create_order, create_order.
  destruct items as [|item rest]; [done|].
  rewrite !bool_decide_eq_false_2 by done.
  destruct (list_find _ (users st)) as [[? currentUser]|]; [|done].
  change (raw_products (raw_state st))
    with (RawProduct.of_product <$> products st).
  change (@nil RawSale.t) with (RawSale.of_sale <$> @nil Sale.t).
  rewrite raw_order_loop_typed.
  destruct (order_loop _ _ _ _ _ _) as [ps r|ps newSales tot]; [done|].
  simpl. rewrite list_lookup_fmap.
  destruct (newSales !! 0) as [first|]; simpl;
    unfold raw_state; simpl; rewrite ?fmap_app; [|done].
  do 4 f_equal. unfold raw_order_obj, order_obj. simpl.
  do 6 f_equal. rewrite <- list_fmap_compose. done.
Qed.

(** The order route on lines that carry an integer id and quantity. *)
Lemma raw_post_orders_typed authHeader items st :
  raw_post_orders authHeader (raw_line <$> items) st
  = (raw_state (post_orders authHeader items st).1,
     (post_orders authHeader items st).2).
Proof.
  unfold raw_post_orders, post_orders, authenticateToken.
  destruct (negb _); [done|].
  destruct (jwt_verify _); [|done]. apply raw_create_order_typed.
Qed.

Lemma raw_state_stock_nonneg st :
  stock_nonneg st → raw_stock_nonneg (raw_state st).
Proof.
  unfold stock_nonneg, raw_stock_nonneg. simpl. intros Hst.
  apply Forall_fmap. eapply Forall_impl; [done|].
  intros p Hp. by exists (Product.stock p).
Qed.

(** On lines that are [null] or carry an integer quantity, the loop leaves
    every stock a number that is not negative, however it ends: completed,
    aborted with 400, or interrupted by the exception of a [null] line. *)
Lemma raw_order_loop_nonneg lines :
  ∀ nsales userId ps newSales orderTotal,
  Forall quantity_given lines →
  Forall (λ p, ∃ z, RawProduct.stock p = Num z ∧ (0 ≤ z)%Z) ps →
  Forall (λ p, ∃ z, RawProduct.stock p = Num z ∧ (0 ≤ z)%Z)
         (raw_loop_products
            (raw_order_loop nsales userId lines ps newSales orderTotal)).
Proof.
  induction lines as [|[|id quantity] rest IH];
    intros nsales userId ps acc tot Hlines Hps; [done..|].
  apply Forall_cons in Hlines as [[q ->] Hrest]. simpl.
  destruct (id ≫= _) as [[i product]|] eqn:Hfind; [|done].
  destruct (js_lt _ _) eqn:Hlt; [done|].
  apply IH; [done|].
  destruct id as [id|]; [|done]. simpl in Hfind.
  apply list_find_Some in Hfind as (Hi & _ & _).
  apply Forall_alter; [done|]. intros p Hp _.
  rewrite Hi in Hp. injection Hp as <-.
  destruct (Forall_lookup_1 _ _ _ _ Hps Hi) as (z & Hz & Hz0).
  rewrite Hz in Hlt. simpl in Hlt. apply bool_decide_eq_false in Hlt.
  exists (z - q)%Z. unfold RawProduct.sub_stock. simpl. rewrite Hz. simpl.
  split; [done|lia].
Qed.

(** [C3, amended] Every request whose cart lines carry an integer id and
    quantity, handled on a state in which every product has a stock that
    is not negative, leaves such a state.  This holds for the routes of the
    server and for those of its first version (which has the sale and user
    registration routes).  For [POST /orders] on a body that is not
    checked it holds as long as each line that is an object carries an
    integer quantity: a line without id is answered 400 and a [null] line
    500, both with the stocks that the earlier lines left. *)
Theorem stock_never_negative st :
  stock_nonneg st →
  (∀ req, stock_nonneg (handle req st).1)
  ∧ (∀ req, stock_nonneg (legacy_handle req st).1)
  ∧ (∀ authHeader lines,
       Forall quantity_given lines →
       raw_stock_nonneg (raw_post_orders authHeader lines st).1).
Proof.
  intros Hst. destruct (handlers_keep_stock_nonneg st Hst) as [Hnew Hold].
  split_and!; [done..|]. intros authHeader lines Hlines.
  pose proof (raw_state_stock_nonneg st Hst) as Hraw.
  unfold raw_post_orders. destruct (negb _); [done|].
  destruct (jwt_verify _) as [claim|]; [|done].
  unfold raw_create_order. case_bool_decide; [done|].
  destruct (list_find _ (users st)) as [[? currentUser]|]; [|done].
  pose proof (raw_order_loop_nonneg lines (length (sales st))
                (User.id currentUser) (raw_products (raw_state st)) []
                (Num 0) Hlines Hraw) as Hloop.
  destruct (raw_order_loop _ _ _ _ _ _) as [ps r|ps|ps newSales tot];
    [done..|].
  by destruct (newSales !! 0).
Qed.

(** ** Accounts *)

(** [C5, amended] A registration whose email is that of an existing user
    always fails with status 400 and leaves the state as it was, so no
    account is created; when the name, the email and the password are all
    present and not empty, the error is the duplicate-email one. *)
Theorem register_existing_email b st u :
  u ∈ users st →
  reg_email b = Some (User.email u) →
  ∃ r, handle (POST_auth_register b) st = (st, r)
       ∧ status r = 400
       ∧ ((∃ name, reg_name b = Some name ∧ name ≠ "") →
          User.email u ≠ "" →
          (∃ password, reg_password b = Some password ∧ password ≠ "") →
          r = error 400 "El email ya está registrado").
Proof.
  intros Hu Hemail. simpl. unfold post_auth_register.
  destruct (list_find_elem_of (λ v, User.email v = User.email u) _ _ Hu eq_refl)
    as [[i v] Hfind].
  rewrite Hemail. simpl. rewrite Hfind.
  destruct (_ || _) eqn:Hmissing; (eexists; split_and!; [done..|]).
  - intros (name & Hname & Hne) Hne' (password & Hpassword & Hne'').
    rewrite Hname, Hpassword in Hmissing. simpl in Hmissing.
    rewrite !bool_decide_eq_false_2 in Hmissing by done. done.
  - done.
Qed.


Lemma filter_length_pos {A} (P : A → Prop) `{!∀ x, Decision (P x)}
    (l : list A) :
  0 < length (filter P l) ↔ ∃ x, x ∈ l ∧ P x.
Proof.
  split.
  - destruct (filter P l) as [|x l'] eqn:Hfilter; [simpl; lia|]. intros _.
    assert (x ∈ filter P l) as [??]%list_elem_of_filter
      by (rewrite Hfilter; left).
    by exists x.
  - intros (x & Hx & HP).
    assert (x ∈ filter P l) as Hin by by apply list_elem_of_filter.
    destruct (filter P l); [by apply elem_of_nil in Hin|simpl; lia].
Qed.

(** [C7] [DELETE /users/:id], sent by an administrator: when a sale refers
    to the id, the answer is 400 and [users] is unchanged; when none does
    and a user has the id, the answer is 200 and exactly the first record
    with that id is removed, all others staying in place; when none does
    and no user has the id, the answer is 404 and [users] is unchanged.
    Products and sales are never touched. *)
Theorem delete_user_cases authHeader claim id st :
  authenticated authHeader claim →
  Claim.role claim = "admin" →
  ∃ st' r,
    handle (DELETE_user authHeader id) st = (st', r)
    ∧ products st' = products st
    ∧ sales st' = sales st
    ∧ ((∃ s, s ∈ sales st ∧ Sale.userId s = id) →
       status r = 400 ∧ users st' = users st)
    ∧ ((∀ s, s ∈ sales st → Sale.userId s ≠ id) →
       (∃ u, u ∈ users st ∧ User.id u = id) →
       status r = 200
       ∧ ∃ before user after,
           users st = before ++ user :: after
           ∧ User.id user = id
           ∧ (∀ u, u ∈ before → User.id u ≠ id)
           ∧ users st' = before ++ after)
    ∧ ((∀ s, s ∈ sales st → Sale.userId s ≠ id) →
       (∀ u, u ∈ users st → User.id u ≠ id) →
       status r = 404 ∧ users st' = users st).
Proof.
  intros Hauth Hadmin. simpl. unfold delete_user.
  rewrite (authenticateToken_pass _ _ _ _ Hauth). unfold isAdmin.
  rewrite bool_decide_eq_false_2 by (by intros []). unfold remove_user.
  case_bool_decide as Hsales.
  { eexists _, _. split_and!; [done..| |]; intros Hnone; exfalso;
      apply filter_length_pos in Hsales as (s & Hs & Hsid);
      by apply (Hnone s). }
  assert (∀ s, s ∈ sales st → Sale.userId s ≠ id) as Hnone.
  { intros s Hs Hsid. apply Hsales, filter_length_pos. by exists s. }
  destruct (list_find _ (users st)) as [[index user]|] eqn:Hfind.
  - eexists _, _. split_and!; [done..| | |].
    + intros (s & Hs & Hsid). by destruct (Hnone s).
    + intros _ _. split; [done|].
      apply list_find_Some in Hfind as (Hindex & Hid & Hleast).
      exists (take index (users st)), user, (drop (S index) (users st)).
      split_and!.
      * by rewrite take_drop_middle.
      * done.
      * intros u [j [Hj Hlt]%lookup_take_Some]%list_elem_of_lookup_1.
        by eapply Hleast.
      * simpl. apply delete_take_drop.
    + intros _ Hnouser. apply list_find_index_lookup in Hfind as [Hin Hid].
      apply list_elem_of_lookup_2 in Hin. by destruct (Hnouser user).
  - eexists _, _. split_and!; [done..| | |].
    + intros (s & Hs & Hsid). by destruct (Hnone s).
    + intros _ (u & Hu & Hid).
      destruct (list_find_elem_of (λ u, User.id u = id) _ _ Hu Hid)
        as [? ?]. congruence.
    + done.
Qed.

(** [C8] The user object of a successful registration, login or profile
    read has no [password] key and agrees with the stored record on every
    other key, while the record in [users] holds the password hash: the
    one just computed for a registration, the one it had for a login or a
    profile read, which leave the state as it was. *)
Theorem responses_hide_password st :
  (∀ b st' r,
     handle (POST_auth_register b) st = (st', r) → status r = 201 →
     ∃ user o,
       users st' = users st ++ [user]
       ∧ User.password user = Some (bcrypt_hash (or_empty (reg_password b)))
       ∧ field "user" (body r) = Some (JObj o)
       ∧ shows_without_password o user)
  ∧ (∀ email password st' r,
       handle (POST_auth_login email password) st = (st', r) →
       status r = 200 →
       ∃ user o hash,
         st' = st ∧ user ∈ users st
         ∧ User.password user = Some hash
         ∧ field "user" (body r) = Some (JObj o)
         ∧ shows_without_password o user)
  ∧ (∀ authHeader st' r,
       handle (GET_auth_profile authHeader) st = (st', r) →
       status r = 200 →
       ∃ user o,
         st' = st ∧ user ∈ users st
         ∧ body r = JObj o
         ∧ shows_without_password o user).
Proof.
  split_and!.
  - intros b st' r. simpl. unfold post_auth_register.
    destruct (_ || _); [by intros [= <- <-]|].
    destruct (list_find _ (users st)); [by intros [= <- <-]|].
    intros [= <- <-] _. eexists _, _. split_and!; [done|done|done|].
    apply userWithoutPassword_shows.
  - intros email password st' r. simpl. unfold post_auth_login.
    destruct (_ || _); [by intros [= <- <-]|].
    destruct (list_find _ (users st)) as [[i user]|] eqn:Hfind;
      [|by intros [= <- <-]].
    destruct (User.password user) as [hash|] eqn:Hhash;
      [|by intros [= <- <-]].
    destruct (negb _); [by intros [= <- <-]|].
    intros [= <- <-] _. exists user. eexists _, hash.
    apply list_find_index_lookup in Hfind as [Hi%list_elem_of_lookup_2 _].
    split_and!; [done..|]. apply userWithoutPassword_shows.
  - intros authHeader st' r. simpl. unfold get_auth_profile.
    destruct (authenticateToken_cases authHeader read_profile st)
      as [(claim & _ & ->)|[->| ->]]; [|by intros [= <- <-]..].
    unfold read_profile.
    destruct (list_find _ (users st)) as [[i user]|] eqn:Hfind;
      [|by intros [= <- <-]].
    intros [= <- <-] _. exists user. eexists.
    apply list_find_index_lookup in Hfind as [Hi%list_elem_of_lookup_2 _].
    split_and!; [done..|]. apply userWithoutPassword_shows.
Qed.

(** ** Catalog *)

(** [C9] [GET /categories] answers with the categories of the products,
    each distinct value once; and the three catalog reads return the state
    they were given: products, users, sales and files. *)
Theorem catalog_reads st :
  (∃ cats,
     (handle GET_categories st).2 = mkResponse 200 (JArr (JStr <$> cats))
     ∧ NoDup cats
     ∧ ∀ c, c ∈ cats ↔ ∃ p, p ∈ products st ∧ Product.category p = c)
  ∧ (handle GET_products st).1 = st
  ∧ (∀ id, (handle (GET_product id) st).1 = st)
  ∧ (handle GET_categories st).1 = st.
Proof.
  split_and!; try done.
  - exists (categories (products st)). split_and!; [done| |].
    + apply foldl_set_add_NoDup, NoDup_nil_2.
    + intros c. unfold categories, new_Set.
      rewrite foldl_set_add_elem, elem_of_nil, list_elem_of_fmap.
      split; [intros [[]|(p & -> & Hp)]; by exists p
             |intros (p & Hp & <-); right; by exists p].
  - intros id. simpl. unfold get_product.
    by destruct (list_find _ (products st)) as [[??]|].
Qed.

(** ** Profile *)




End Properties.

(** ** The handlers on concrete requests *)

Lemma ana_authenticated : authenticated (H:=stub) ana_header ana_claim.
Proof. exists "t-ana". split_and!; [reflexivity|discriminate|reflexivity]. Defined.

Lemma admin_authenticated : authenticated (H:=stub) admin_header admin_claim.
Proof.
  exists "t-admin". split_and!; [reflexivity|discriminate|reflexivity].
Defined.

(** The two orders that the specification works out, on a catalog whose
    product 1 has stock 3 and price 100. *)
Example order_two_of_three :
  let res := handle (H:=stub) (POST_orders ana_header [Item.mk 1 2]) shop in
  status res.2 = 201
  ∧ Product.stock <$> find_product 1 (products res.1) = Some 1%Z
  ∧ sales res.1 = [Sale.mk 1 2 1 2 200 "2024-05-01T10:00:00.000Z"]
  ∧ field "order" (body res.2) ≫= field "total" = Some (JNum 200).
Proof. vm_compute. split_and!; reflexivity. Qed.

Example order_five_of_three :
  let res := handle (H:=stub) (POST_orders ana_header [Item.mk 1 5]) shop in
  res = (shop, error 400 "Stock insuficiente para Laptop. Disponible: 3").
Proof. reflexivity. Qed.

(** [C1] A cart whose second line asks for more than the stock is answered
    400 and appends no sale, but the stock that its first line took stays
    taken in memory (3 becomes 1), and the products file is not rewritten. *)
Theorem rejected_order_keeps_earlier_decrement :
  let items := [Item.mk 1 2; Item.mk 2 5] in
  let res := handle (H:=stub) (POST_orders ana_header items) shop in
  res.2 = error 400 "Stock insuficiente para Mouse. Disponible: 1"
  ∧ sales res.1 = sales shop
  ∧ find_product 1 (products shop) = Some laptop
  ∧ find_product 1 (products res.1) = Some (Product.sub_stock 2 laptop)
  ∧ products res.1 ≠ products shop
  ∧ products_json res.1 = products shop.
Proof. vm_compute. split_and!; (reflexivity || discriminate). Qed.

(** [C2, as stated] Both lines of this cart name a known product and ask
    for no more than its current stock (2 of 3), yet the order is answered
    400 and no sale is appended. *)
Lemma order_same_product_twice :
  let items := [Item.mk 1 2; Item.mk 1 2] in
  let res := handle (H:=stub) (POST_orders ana_header items) shop in
  authenticated (H:=stub) ana_header ana_claim
  ∧ ana ∈ users shop ∧ User.id ana = Claim.id ana_claim
  ∧ (∀ item, item ∈ items →
       ∃ p, find_product (Item.id item) (products shop) = Some p
            ∧ (Item.quantity item ≤ Product.stock p)%Z)
  ∧ res.2 = error 400 "Stock insuficiente para Laptop. Disponible: 1"
  ∧ status res.2 ≠ 201
  ∧ sales res.1 = sales shop.
Proof.
  split_and!; try (vm_compute; (reflexivity || discriminate)).
  - apply ana_authenticated.
  - right. left.
  - intros item Hitem. exists laptop.
    repeat (apply elem_of_cons in Hitem as [->|Hitem]; [by vm_compute|]).
    by apply elem_of_nil in Hitem.
Qed.

Lemma order_in_stock_is_served_witness :
  let items := [Item.mk 1 2; Item.mk 2 1; Item.mk 1 1] in
  authenticated (H:=stub) ana_header ana_claim
  ∧ (∃ u, u ∈ users shop ∧ User.id u = Claim.id ana_claim)
  ∧ items ≠ []
  ∧ (∀ k item, items !! k = Some item →
       ∃ p, line_in_stock items (products shop) k item p)
  ∧ ∃ st' r newSales,
      handle (H:=stub) (POST_orders ana_header items) shop = (st', r)
      ∧ status r = 201
      ∧ sales st' = sales shop ++ newSales
      ∧ length newSales = length items
      ∧ (∀ k item, items !! k = Some item →
           ∃ s p, newSales !! k = Some s
                  ∧ find_product (Item.id item) (products shop) = Some p
                  ∧ Sale.productId s = Item.id item
                  ∧ Sale.quantity s = Item.quantity item
                  ∧ Sale.total s = (Product.price p * Item.quantity item)%Z)
      ∧ field "order" (body r) ≫= field "total"
        = Some (JNum (sum_totals newSales))
      ∧ (∀ id p, find_product id (products shop) = Some p →
           find_product id (products st')
           = Some (Product.sub_stock (ordered id items) p))
      ∧ (∀ j p, products shop !! j = Some p →
           products st' !! j = Some (served items (products shop) j p))
      ∧ length (products st') = length (products shop).
Proof.
  intros items.
  assert (∃ u, u ∈ users shop ∧ User.id u = Claim.id ana_claim) as Huser.
  { exists ana. split; [right; left|reflexivity]. }
  assert (∀ k item, items !! k = Some item →
            ∃ p, line_in_stock items (products shop) k item p) as Hstock.
  { intros [|[|[|k]]] item [= <-].
    - exists laptop. split; [reflexivity|vm_compute; discriminate].
    - exists mouse. split; [reflexivity|vm_compute; discriminate].
    - exists laptop. split; [reflexivity|vm_compute; discriminate]. }
  split_and!; [apply ana_authenticated|exact Huser|discriminate|exact Hstock|].
  exact (order_in_stock_is_served (H:=stub) ana_header ana_claim items shop
           ana_authenticated Huser ltac:(discriminate) Hstock).
Defined.

Lemma stock_never_negative_witness :
  let lines := [LineObject (Some 1%Z) (Some 2%Z); LineObject None (Some 1%Z)] in
  let after := raw_post_orders (H:=stub) ana_header lines shop in
  stock_nonneg shop
  ∧ (∀ req, stock_nonneg (handle (H:=stub) req shop).1)
  ∧ (∀ req, stock_nonneg (legacy_handle (H:=stub) req shop).1)
  ∧ Forall quantity_given lines
  ∧ after.2 = error 400 "Producto undefined no encontrado"
  ∧ RawProduct.stock <$> raw_products after.1 = [Num 1; Num 1]
  ∧ raw_stock_nonneg after.1.
Proof.
  intros lines after.
  assert (stock_nonneg shop) as Hshop.
  { repeat constructor; vm_compute; discriminate. }
  assert (Forall quantity_given lines) as Hlines.
  { repeat constructor; by eexists. }
  split; [exact Hshop|].
  split; [exact (proj1 (stock_never_negative (H:=stub) shop Hshop))|].
  split; [exact (proj1 (proj2 (stock_never_negative (H:=stub) shop Hshop)))|].
  split; [exact Hlines|]. split; [reflexivity|]. split; [reflexivity|].
  exact (proj2 (proj2 (stock_never_negative (H:=stub) shop Hshop))
           ana_header lines Hlines).
Defined.

Lemma order_sale_ids_witness :
  let items := [Item.mk 1 2; Item.mk 2 1] in
  let res := handle (H:=stub) (POST_orders ana_header items) shop in
  status res.2 = 201
  ∧ ∃ newSales first,
      sales res.1 = sales shop ++ newSales
      ∧ length newSales = length items
      ∧ (∀ i s, newSales !! i = Some s →
           Sale.id s = (Z.of_nat (length (sales shop)) + Z.of_nat i + 1)%Z)
      ∧ NoDup (Sale.id <$> newSales)
      ∧ newSales !! 0 = Some first
      ∧ field "order" (body res.2) ≫= field "items"
        = Some (JArr (JObj ∘ Sale.to_obj <$> newSales))
      ∧ field "order" (body res.2) ≫= field "id" = Some (JNum (Sale.id first))
      ∧ field "order" (body res.2) ≫= field "date"
        = Some (JStr (Sale.date first)).
Proof.
  intros items res. split; [reflexivity|].
  exact (order_sale_ids (H:=stub) ana_header items shop res.1 res.2
           eq_refl eq_refl).
Defined.

(** [C5, as stated] The email of this registration is Ana's, who exists,
    but the name is missing: the error is the one for missing fields, not
    the duplicate-email one. *)
Lemma register_existing_email_without_name :
  let b := mkRegisterBody None (Some "ana@mail.com") (Some "secret")
                          None None in
  let res := handle (H:=stub) (POST_auth_register b) shop in
  ana ∈ users shop
  ∧ reg_email b = Some (User.email ana)
  ∧ res.2 = error 400 "Nombre, email y contraseña son requeridos"
  ∧ res.2 ≠ error 400 "El email ya está registrado".
Proof.
  split_and!; [right; left|reflexivity|reflexivity|vm_compute; discriminate].
Qed.

(** [C3, as stated] The only line of this cart has no [quantity].  The
    stock check [3 < undefined] is false, so the line is served and the
    order answered 201; [product.stock -= undefined] leaves the stock of
    the laptop at [NaN], which is not a number at or above zero. *)
Lemma order_without_quantity_breaks_stock :
  let res :=
    raw_post_orders (H:=stub) ana_header [LineObject (Some 1%Z) None] shop in
  stock_nonneg shop
  ∧ status res.2 = 201
  ∧ RawProduct.stock <$> raw_products res.1 = [NaN; Num 1]
  ∧ ¬ raw_stock_nonneg res.1.
Proof.
  split_and!; [repeat constructor; vm_compute; discriminate
              |reflexivity|reflexivity|].
  intros Hstock. apply Forall_cons in Hstock as [(z & Hz & _) _].
  vm_compute in Hz. discriminate.
Qed.



Lemma register_existing_email_witness :
  let b := mkRegisterBody (Some "Ana B") (Some "ana@mail.com") (Some "secret")
                          (Some "555-0202") None in
  ana ∈ users shop
  ∧ reg_email b = Some (User.email ana)
  ∧ ∃ r, handle (H:=stub) (POST_auth_register b) shop = (shop, r)
         ∧ status r = 400
         ∧ ((∃ name, reg_name b = Some name ∧ name ≠ "") →
            User.email ana ≠ "" →
            (∃ password, reg_password b = Some password ∧ password ≠ "") →
            r = error 400 "El email ya está registrado").
Proof.
  intros b.
  assert (ana ∈ users shop) as Hana by (right; left).
  split_and!; [exact Hana|reflexivity|].
  exact (register_existing_email (H:=stub) b shop ana Hana eq_refl).
Defined.


Lemma delete_user_cases_witness :
  authenticated (H:=stub) admin_header admin_claim
  ∧ Claim.role admin_claim = "admin"
  ∧ ∃ st' r,
      handle (H:=stub) (DELETE_user admin_header 2) shop = (st', r)
      ∧ products st' = products shop
      ∧ sales st' = sales shop
      ∧ ((∃ s, s ∈ sales shop ∧ Sale.userId s = 2%Z) →
         status r = 400 ∧ users st' = users shop)
      ∧ ((∀ s, s ∈ sales shop → Sale.userId s ≠ 2%Z) →
         (∃ u, u ∈ users shop ∧ User.id u = 2%Z) →
         status r = 200
         ∧ ∃ before user after,
             users shop = before ++ user :: after
             ∧ User.id user = 2%Z
             ∧ (∀ u, u ∈ before → User.id u ≠ 2%Z)
             ∧ users st' = before ++ after)
      ∧ ((∀ s, s ∈ sales shop → Sale.userId s ≠ 2%Z) →
         (∀ u, u ∈ users shop → User.id u ≠ 2%Z) →
         status r = 404 ∧ users st' = users shop).
Proof.
  split_and!; [apply admin_authenticated|reflexivity|].
  exact (delete_user_cases (H:=stub) admin_header admin_claim 2 shop
           admin_authenticated eq_refl).
Defined.

Lemma responses_hide_password_witness :
  let b := mkRegisterBody (Some "Beto") (Some "beto@mail.com") (Some "secret")
                          None (Some "Calle 2") in
  let registered := handle (H:=stub) (POST_auth_register b) shop in
  let logged :=
    handle (H:=stub)
           (POST_auth_login (Some "ana@mail.com") (Some "password123")) shop in
  let read := handle (H:=stub) (GET_auth_profile ana_header) shop in
  (status registered.2 = 201
   ∧ ∃ user o,
       users registered.1 = users shop ++ [user]
       ∧ User.password user
         = Some (bcrypt_hash (Externals:=stub) (or_empty (reg_password b)))
       ∧ field "user" (body registered.2) = Some (JObj o)
       ∧ shows_without_password o user)
  ∧ (status logged.2 = 200
     ∧ ∃ user o hash,
         logged.1 = shop ∧ user ∈ users shop
         ∧ User.password user = Some hash
         ∧ field "user" (body logged.2) = Some (JObj o)
         ∧ shows_without_password o user)
  ∧ (status read.2 = 200
     ∧ ∃ user o,
         read.1 = shop ∧ user ∈ users shop
         ∧ body read.2 = JObj o
         ∧ shows_without_password o user).
Proof.
  intros b registered logged read.
  destruct (responses_hide_password (H:=stub) shop)
    as (Hregister & Hlogin & Hread).
  split_and!; try reflexivity.
  - exact (Hregister b registered.1 registered.2 eq_refl eq_refl).
  - exact (Hlogin (Some "ana@mail.com") (Some "password123")
                  logged.1 logged.2 eq_refl eq_refl).
  - exact (Hread ana_header read.1 read.2 eq_refl eq_refl).
Defined.



(** * Further properties of the server and of the storefront *)

Section Routes.
Context `{Externals}.

(** ** The middleware, seen from the routes *)

(** [X1]
    A request to a protected route that carries no token is answered 401,
    one whose token [jwt.verify] refuses is answered 403; in both cases the
    callback of the route does not run and the state is as before. *)
Theorem protected_route_needs_token req authHeader st :
  protected_header req = Some authHeader →
  ((bearer_token authHeader = None ∨ bearer_token authHeader = Some "") →
   handle req st = (st, error 401 "Token no proporcionado"))
  ∧ (∀ token, bearer_token authHeader = Some token → token ≠ "" →
       jwt_verify token = None →
       handle req st = (st, error 403 "Token inválido o expirado")).
Proof.
  intros Hreq.
  assert (∃ next, handle req = authenticateToken authHeader next)
    as [next ->].
  { destruct req; simpl in Hreq; try done; injection Hreq as ->; simpl;
      by eexists. }
  unfold authenticateToken. split.
  - by intros [-> | ->].
  - intros token -> Hne Hverify. simpl.
    rewrite bool_decide_eq_false_2 by done. simpl. by rewrite Hverify.
Qed.

(** [X2]
    A request to an administrative route whose token is valid but whose
    role is not [admin] is answered 403 and changes nothing. *)
Theorem admin_route_needs_admin req authHeader claim st :
  admin_route_header req = Some authHeader →
  authenticated authHeader claim →
  Claim.role claim ≠ "admin" →
  handle req st
  = (st, error 403 "Acceso denegado. Se requiere rol de administrador").
Proof.
  intros Hreq Hauth Hrole.
  destruct req; simpl in Hreq; try done; injection Hreq as ->; simpl;
    unfold put_product, delete_user, get_sales;
    rewrite (authenticateToken_pass _ _ _ _ Hauth); unfold isAdmin;
    by rewrite bool_decide_eq_true_2.
Qed.

Lemma split_space_no_space s : has_space s = false → split_space s = [s].
Proof.
  induction s as [|c s IH]; [done|]. simpl.
  case_bool_decide; [done|]. simpl. intros Hs. by rewrite (IH Hs).
Qed.

Lemma split_space_words word rest :
  has_space word = false →
  split_space (word +:+ " " +:+ rest) = word :: split_space rest.
Proof.
  induction word as [|c word IH]; [done|]. simpl.
  case_bool_decide; [done|]. simpl. intros Hword. by rewrite (IH Hword).
Qed.

(** [X3]
    The token is the second word of the header, whatever the first word
    is: the header that the storefront builds, ['Bearer ' + token], gives
    the token back, and so does any other scheme.  A header of one word
    carries no token. *)
Theorem bearer_token_second_word scheme token :
  has_space scheme = false →
  has_space token = false →
  bearer_token (Some (scheme +:+ " " +:+ token)) = Some token
  ∧ bearer_token (checkout_header token) = Some token
  ∧ (scheme ≠ "" → bearer_token (Some scheme) = None).
Proof.
  intros Hscheme Htoken.
  assert (∀ word, has_space word = false →
            bearer_token (Some (word +:+ " " +:+ token)) = Some token)
    as Hword.
  { intros word Hw. unfold bearer_token.
    assert (truthy (Some (word +:+ " " +:+ token)) = true) as ->.
    { simpl. rewrite bool_decide_eq_false_2; [done|]. by destruct word. }
    rewrite split_space_words by done.
    by rewrite split_space_no_space. }
  split_and!; [by apply Hword|by apply (Hword "Bearer")|].
  intros Hne. unfold bearer_token. simpl.
  rewrite bool_decide_eq_false_2 by done. simpl.
  by rewrite split_space_no_space.
Qed.

(** ** How a request changes [users] and [sales] *)

Lemma assign_if_same_account set v u :
  (∀ s u, same_account (set s u) u) → same_account (assign_if set v u) u.
Proof. intros Hset. unfold assign_if. by destruct (truthy v). Qed.

(** A request leaves [users] as it is, appends a customer whose email is
    new, removes one record, or updates one record of an account. *)
Lemma handle_users req st :
  users (handle req st).1 = users st
  ∨ (∃ u, users (handle req st).1 = users st ++ [u]
          ∧ User.role u = "customer"
          ∧ ∀ v, v ∈ users st → User.email v ≠ User.email u)
  ∨ (∃ i, users (handle req st).1 = delete i (users st))
  ∨ (∃ i f, users (handle req st).1 = alter f i (users st)
            ∧ ∀ u, same_account (f u) u).
Proof.
  set (Φ := λ st' : State,
    users st' = users st
    ∨ (∃ u, users st' = users st ++ [u]
            ∧ User.role u = "customer"
            ∧ ∀ v, v ∈ users st → User.email v ≠ User.email u)
    ∨ (∃ i, users st' = delete i (users st))
    ∨ (∃ i f, users st' = alter f i (users st)
              ∧ ∀ u, same_account (f u) u)).
  change (Φ (handle req st).1).
  assert (Φ st) as Hst by by left.
  destruct req; simpl; try done;
    unfold post_orders, get_my_orders, get_auth_profile, put_auth_profile,
           put_product, delete_user, get_sales.
  - unfold get_product. by destruct (list_find _ (products st)) as [[??]|].
  - unfold post_auth_register. destruct (_ || _); [done|].
    destruct (list_find _ (users st)) as [[??]|] eqn:Hfind; [done|].
    right. left. eexists. split_and!; [done..|].
    intros v Hv Hemail. apply list_find_None in Hfind.
    rewrite Forall_forall in Hfind. by apply (Hfind v Hv).
  - unfold post_auth_login. destruct (_ || _); [done|].
    destruct (list_find _ (users st)) as [[? user]|]; [|done].
    destruct (User.password user); [|done]. by destruct (negb _).
  - apply (authenticateToken_preserves Φ); [done|]. intros claim.
    unfold create_order. case_bool_decide; [done|].
    destruct (list_find _ (users st)) as [[??]|]; [|done].
    destruct (order_loop _ _ _ _ _ _) as [?|? newSales ?]; [done|].
    by destruct (newSales !! 0).
  - by apply (authenticateToken_preserves Φ).
  - apply (authenticateToken_preserves Φ); [done|]. intros claim.
    unfold read_profile. by destruct (list_find _ (users st)) as [[??]|].
  - apply (authenticateToken_preserves Φ); [done|]. intros claim.
    unfold update_profile.
    destruct (list_find _ (users st)) as [[userIndex ?]|]; [|done].
    assert (Φ (write_users (set_users
              (alter (assign_if User.set_address address) userIndex
                 (alter (assign_if User.set_phone phone) userIndex
                    (alter (assign_if User.set_name name) userIndex
                       (users st)))) st))) as Hupd.
    { do 3 right. eexists userIndex, _. split.
      - simpl. by rewrite !list_alter_alter_eq.
      - intros u. simpl.
        pose proof (assign_if_same_account User.set_name name u
                      ltac:(done)) as H1.
        pose proof (assign_if_same_account User.set_phone phone
                      (assign_if User.set_name name u) ltac:(done)) as H2.
        pose proof (assign_if_same_account User.set_address address
                      (assign_if User.set_phone phone
                         (assign_if User.set_name name u)) ltac:(done)) as H3.
        unfold same_account in *. intuition congruence. }
    simpl. by destruct (_ !! userIndex).
  - apply (authenticateToken_preserves Φ); [done|]. intros claim.
    apply (isAdmin_preserves Φ); [done|]. unfold update_price.
    by destruct (list_find _ (products st)) as [[??]|].
  - apply (authenticateToken_preserves Φ); [done|]. intros claim.
    apply (isAdmin_preserves Φ); [done|]. unfold remove_user.
    case_bool_decide; [done|].
    destruct (list_find _ (users st)) as [[index ?]|]; [|done].
    right. right. left. by exists index.
  - apply (authenticateToken_preserves Φ); [done|]. intros claim.
    by apply (isAdmin_preserves Φ).
Qed.

(** The same for the first version, which does not look at the email of a
    user that [POST /users] adds. *)
Lemma legacy_handle_users req st :
  users (legacy_handle req st).1 = users st
  ∨ (∃ u, users (legacy_handle req st).1 = users st ++ [u]
          ∧ User.role u = "customer")
  ∨ (∃ i, users (legacy_handle req st).1 = delete i (users st)).
Proof.
  destruct req; simpl; try by left.
  - unfold get_product. left.
    by destruct (list_find _ (products st)) as [[??]|].
  - unfold legacy_post_orders. destruct user as [user|]; [|by left].
    case_bool_decide; [by left|].
    destruct (list_find _ (users st)) as [[? u]|].
    + left. destruct (order_loop _ _ _ _ _ _) as [?|? newSales ?];
        [done|]. by destruct (newSales !! 0).
    + right. left.
      exists (User.mk (Z.of_nat (length (users st)) + 1)
                (buyer_name user) (buyer_email user) None
                (buyer_phone user) (buyer_address user) "customer").
      split; [|done].
      destruct (order_loop _ _ _ _ _ _) as [?|? newSales ?];
        [done|]. by destruct (newSales !! 0).
  - right. left. by eexists.
  - left. unfold legacy_post_sales.
    destruct (list_find _ (users st)) as [[??]|]; [|done].
    by destruct (list_find _ (products st)) as [[??]|].
  - left. unfold update_price.
    by destruct (list_find _ (products st)) as [[??]|].
  - unfold remove_user. case_bool_decide; [by left|].
    destruct (list_find _ (users st)) as [[index ?]|]; [|by left].
    right. right. by exists index.
Qed.

(** A request appends to [sales] the lines that it creates, numbered from
    the length of [sales], and nothing else. *)
Lemma create_order_sales items claim st :
  ∃ created,
    sales (create_order items claim st).1 = sales st ++ created
    ∧ ∀ k s, created !! k = Some s →
        Sale.id s = (Z.of_nat (length (sales st)) + Z.of_nat k + 1)%Z.
Proof.
  unfold create_order.
  case_bool_decide; [exists []; by rewrite app_nil_r|].
  destruct (list_find _ (users st)) as [[??]|];
    [|exists []; by rewrite app_nil_r].
  destruct (order_loop _ _ _ _ _ _) as [?|ps newSales tot] eqn:Hloop;
    [exists []; by rewrite app_nil_r|].
  apply order_loop_Completed in Hloop as (created & -> & _ & Hlen & Hlines & _).
  exists created. split; [by destruct (_ !! 0)|].
  intros k s Hk.
  destruct (lookup_lt_is_Some_2 items k) as [item Hitem].
  { apply lookup_lt_Some in Hk. lia. }
  destruct (Hlines k item Hitem) as (p & _ & Hsale).
  rewrite Hsale in Hk. by injection Hk as <-.
Qed.

Lemma handle_sales req st :
  ∃ created,
    sales (handle req st).1 = sales st ++ created
    ∧ ∀ k s, created !! k = Some s →
        Sale.id s = (Z.of_nat (length (sales st)) + Z.of_nat k + 1)%Z.
Proof.
  set (Φ := λ st' : State, ∃ created,
    sales st' = sales st ++ created
    ∧ ∀ k s, created !! k = Some s →
        Sale.id s = (Z.of_nat (length (sales st)) + Z.of_nat k + 1)%Z).
  change (Φ (handle req st).1).
  assert (Φ st) as Hst by (exists []; by rewrite app_nil_r).
  destruct req; simpl; try done;
    unfold post_orders, get_my_orders, get_auth_profile, put_auth_profile,
           put_product, delete_user, get_sales.
  - unfold get_product. by destruct (list_find _ (products st)) as [[??]|].
  - unfold post_auth_register. destruct (_ || _); [done|].
    by destruct (list_find _ (users st)) as [[??]|].
  - unfold post_auth_login. destruct (_ || _); [done|].
    destruct (list_find _ (users st)) as [[? user]|]; [|done].
    destruct (User.password user); [|done]. by destruct (negb _).
  - apply (authenticateToken_preserves Φ); [done|]. intros claim.
    apply create_order_sales.
  - by apply (authenticateToken_preserves Φ).
  - apply (authenticateToken_preserves Φ); [done|]. intros claim.
    unfold read_profile. by destruct (list_find _ (users st)) as [[??]|].
  - apply (authenticateToken_preserves Φ); [done|]. intros claim.
    unfold update_profile.
    destruct (list_find _ (users st)) as [[userIndex ?]|]; [|done].
    simpl. by destruct (_ !! userIndex).
  - apply (authenticateToken_preserves Φ); [done|]. intros claim.
    apply (isAdmin_preserves Φ); [done|]. unfold update_price.
    by destruct (list_find _ (products st)) as [[??]|].
  - apply (authenticateToken_preserves Φ); [done|]. intros claim.
    apply (isAdmin_preserves Φ); [done|]. unfold remove_user.
    case_bool_decide; [done|].
    by destruct (list_find _ (users st)) as [[index ?]|].
  - apply (authenticateToken_preserves Φ); [done|]. intros claim.
    by apply (isAdmin_preserves Φ).
Qed.

Lemma legacy_handle_sales req st :
  ∃ created,
    sales (legacy_handle req st).1 = sales st ++ created
    ∧ ∀ k s, created !! k = Some s →
        Sale.id s = (Z.of_nat (length (sales st)) + Z.of_nat k + 1)%Z.
Proof.
  assert (∃ created : list Sale.t,
            sales st = sales st ++ created
            ∧ ∀ k s, created !! k = Some s →
                Sale.id s = (Z.of_nat (length (sales st)) + Z.of_nat k + 1)%Z)
    as Hst by (exists []; by rewrite app_nil_r).
  destruct req; simpl; try done.
  - unfold get_product. by destruct (list_find _ (products st)) as [[??]|].
  - unfold legacy_post_orders. destruct user as [user|]; [|done].
    case_bool_decide; [done|].
    assert (∀ st0 u, sales st0 = sales st →
      ∃ created,
        sales (match order_loop (length (sales st0)) (User.id u) items
                                (products st0) [] 0 with
               | Aborted ps r => (set_products ps st0, r)
               | Completed ps newSales orderTotal =>
                   let st1 := set_sales (sales st0 ++ newSales)
                                        (set_products ps st0) in
                   let st2 := write_products (write_sales st1) in
                   match newSales !! 0 with
                   | None => (st2, error 500 "Internal Server Error")
                   | Some first =>
                       (st2, mkResponse 201 (JObj [
                          ("message", JStr "Orden creada exitosamente");
                          ("order", JObj (order_obj first u
                                                    newSales orderTotal))]))
                   end
               end).1 = sales st ++ created
        ∧ ∀ k s, created !! k = Some s →
            Sale.id s = (Z.of_nat (length (sales st)) + Z.of_nat k + 1)%Z)
      as Hloop.
    { intros st0 u Hsales.
      destruct (order_loop _ _ _ _ _ _) as [?|ps newSales tot] eqn:Hloop.
      { exists []. simpl. by rewrite Hsales, app_nil_r. }
      rewrite Hsales in Hloop.
      apply order_loop_Completed in Hloop
        as (created & -> & _ & Hlen & Hlines & _).
      exists created. split; [destruct (_ !! 0); simpl; by rewrite Hsales|].
      intros k s Hk.
      destruct (lookup_lt_is_Some_2 items k) as [item Hitem].
      { apply lookup_lt_Some in Hk. lia. }
      destruct (Hlines k item Hitem) as (p & _ & Hsale).
      rewrite Hsale in Hk. by injection Hk as <-. }
    destruct (list_find _ (users st)) as [[? u]|]; by apply Hloop.
  - unfold legacy_post_sales.
    destruct (list_find _ (users st)) as [[??]|]; [|done].
    destruct (list_find _ (products st)) as [[? product]|]; [|done].
    eexists [_]. split; [done|]. intros [|k] s [= <-]. simpl. lia.
  - unfold update_price. by destruct (list_find _ (products st)) as [[??]|].
  - unfold remove_user. case_bool_decide; [done|].
    by destruct (list_find _ (users st)) as [[??]|].
Qed.

(** ** Invariants of the collections *)

(** [X4]
    If the sale at each position [i] has id [i + 1], this is still so
    after any request, to the server or to its first version: the ids of
    [sales] stay pairwise distinct. *)
Theorem sale_ids_stay_sequential st :
  sale_ids_sequential st →
  (∀ req, sale_ids_sequential (handle req st).1
          ∧ NoDup (Sale.id <$> sales (handle req st).1))
  ∧ (∀ req, sale_ids_sequential (legacy_handle req st).1
            ∧ NoDup (Sale.id <$> sales (legacy_handle req st).1)).
Proof.
  intros Hst.
  assert (∀ st', (∃ created,
            sales st' = sales st ++ created
            ∧ ∀ k s, created !! k = Some s →
                Sale.id s = (Z.of_nat (length (sales st)) + Z.of_nat k + 1)%Z) →
          sale_ids_sequential st' ∧ NoDup (Sale.id <$> sales st')) as Hstep.
  { intros st' (created & Hsales & Hids).
    assert (sale_ids_sequential st') as Hseq.
    { intros i s. rewrite Hsales, lookup_app_Some.
      intros [Hi|[Hge Hi]]; [by apply Hst|].
      rewrite (Hids _ _ Hi). lia. }
    split; [done|]. apply NoDup_alt. intros i j id.
    rewrite !list_lookup_fmap.
    destruct (sales st' !! i) as [si|] eqn:Hi; [|done].
    destruct (sales st' !! j) as [sj|] eqn:Hj; [|done].
    simpl. intros [= <-] [= Heq].
    rewrite (Hseq _ _ Hi), (Hseq _ _ Hj) in Heq. lia. }
  split; intros req; apply Hstep;
    [apply handle_sales|apply legacy_handle_sales].
Qed.

(** A request that is handled without any other request running before
    its response keeps the emails distinct. *)
Lemma handle_emails_unique req st :
  emails_unique st → emails_unique (handle req st).1.
Proof.
  unfold emails_unique. intros Hst.
  destruct (handle_users req st)
    as [->|[(u & -> & _ & Hnew)|[(i & ->)|(i & f & -> & Hf)]]].
  - done.
  - rewrite fmap_app. apply NoDup_app. split_and!; [done| |apply NoDup_singleton].
    intros email (v & -> & Hv)%list_elem_of_fmap Heq%list_elem_of_singleton.
    by apply (Hnew v).
  - rewrite list_fmap_delete. eapply sublist_NoDup; [done|]. apply sublist_delete.
  - rewrite (list_fmap_alter User.email f id).
    + by rewrite list_alter_id.
    + apply Forall_forall. intros u _. by destruct (Hf u) as (_ & -> & _).
Qed.

(** [X6]
    No route creates an administrator: every user with the [admin] role
    after a request, to the server or to its first version, is an account
    that had this role before. *)
Theorem admin_role_never_granted st u' :
  User.role u' = "admin" →
  (∀ req, u' ∈ users (handle req st).1 →
          ∃ u, u ∈ users st ∧ same_account u' u)
  ∧ (∀ req, u' ∈ users (legacy_handle req st).1 →
            ∃ u, u ∈ users st ∧ same_account u' u).
Proof.
  intros Hadmin.
  assert (∀ u, same_account u u) as Hrefl by done.
  split; intros req.
  - destruct (handle_users req st)
      as [->|[(u & -> & Hrole & _)|[(i & ->)|(i & f & -> & Hf)]]].
    + intros Hu'. by exists u'.
    + intros [Hu'| ->%list_elem_of_singleton]%elem_of_app;
        [by exists u'|congruence].
    + intros Hu'%list_elem_of_delete_inv. by exists u'.
    + intros (j & Hj)%list_elem_of_lookup_1.
      rewrite list_lookup_alter in Hj. case_decide; [subst j|].
      * destruct (users st !! i) as [u|] eqn:Hu; [|done].
        injection Hj as <-. exists u. split; [|done].
        by eapply list_elem_of_lookup_2.
      * exists u'. split; [by eapply list_elem_of_lookup_2|done].
  - destruct (legacy_handle_users req st)
      as [->|[(u & -> & Hrole)|(i & ->)]].
    + intros Hu'. by exists u'.
    + intros [Hu'| ->%list_elem_of_singleton]%elem_of_app;
        [by exists u'|congruence].
    + intros Hu'%list_elem_of_delete_inv. by exists u'.
Qed.






(** ** Accounts *)

(** [X8]
    A registration with a name, a password and an email that no user has
    is answered 201: one customer is appended, with the next id and the
    hash of the password, and [users.json] is rewritten.  When the hash
    library accepts a password against its own hash, a later login with
    the same email and password, on the state that the registration left,
    is answered 200; its token is signed, at the time of the login, for
    the claim for which the token of the registration was signed, and its
    user object is the one of the registration.  ([later] stands for the
    libraries and the clock at the time of the login, which need not sign
    the claim into the token that the registration returned.) *)
Theorem register_then_login (later : Externals) name email password
    phone address st :
  name ≠ "" → email ≠ "" → password ≠ "" →
  (∀ u, u ∈ users st → User.email u ≠ email) →
  bcrypt_compare (Externals:=later) password
    (bcrypt_hash (Externals:=H) password) = true →
  ∃ st' r r',
    handle (H:=H)
      (POST_auth_register
         (mkRegisterBody (Some name) (Some email) (Some password)
                         phone address)) st = (st', r)
    ∧ status r = 201
    ∧ users st'
      = users st ++ [User.mk (Z.of_nat (length (users st)) + 1) name email
                             (Some (bcrypt_hash (Externals:=H) password))
                             (or_empty phone) (or_empty address) "customer"]
    ∧ users_json st' = users st'
    ∧ products st' = products st ∧ sales st' = sales st
    ∧ field "token" (body r)
      = Some (JStr (jwt_sign (Externals:=H)
                      (Claim.mk (Z.of_nat (length (users st)) + 1)
                                email "customer")))
    ∧ handle (H:=later) (POST_auth_login (Some email) (Some password)) st'
      = (st', r')
    ∧ status r' = 200
    ∧ field "token" (body r')
      = Some (JStr (jwt_sign (Externals:=later)
                      (Claim.mk (Z.of_nat (length (users st)) + 1)
                                email "customer")))
    ∧ field "user" (body r') = field "user" (body r).
Proof.
  intros Hname Hemail Hpassword Hnew Hcompare. simpl.
  unfold post_auth_register, post_auth_login. simpl.
  rewrite !bool_decide_eq_false_2 by done. simpl.
  assert (list_find (λ u, User.email u = email) (users st) = None) as Hnone.
  { apply list_find_None, Forall_forall. intros u Hu. by apply Hnew. }
  rewrite Hnone. simpl.
  eexists _, _, _. split; [reflexivity|]. simpl.
  rewrite (list_find_app_r _ _ _ Hnone). simpl.
  rewrite decide_True by done. simpl. rewrite Hcompare. simpl.
  split_and!; done.
Qed.

(** ** Prices *)

(** [X9]
    [PUT /products/:id] by an administrator: an unknown id is answered 404
    and changes nothing; for a known id the product that [findIndex]
    returns gets the submitted price, whatever its sign, and keeps its
    other fields (its stock among them), every other product is as before,
    the response carries the updated product and [products.json] is
    rewritten.  Users and sales are not touched. *)
Theorem price_update_frame authHeader claim id price st :
  authenticated authHeader claim →
  Claim.role claim = "admin" →
  ∃ st' r,
    handle (PUT_product authHeader id price) st = (st', r)
    ∧ users st' = users st ∧ sales st' = sales st
    ∧ ((∀ p, p ∈ products st → Product.id p ≠ id) →
       st' = st ∧ r = error 404 "Producto no encontrado")
    ∧ (∀ index p,
         list_find (λ p, Product.id p = id) (products st) = Some (index, p) →
         status r = 200
         ∧ products st' = <[index := Product.set_price price p]> (products st)
         ∧ products_json st' = products st'
         ∧ field "product" (body r)
           = Some (JObj (Product.to_obj (Product.set_price price p)))).
Proof.
  intros Hauth Hadmin. simpl. unfold put_product.
  rewrite (authenticateToken_pass _ _ _ _ Hauth). unfold isAdmin.
  rewrite bool_decide_eq_false_2 by (by intros []). unfold update_price.
  destruct (list_find _ (products st)) as [[index p]|] eqn:Hfind.
  - pose proof Hfind as [Hindex Hid]%list_find_index_lookup.
    eexists _, _. split_and!; [done..| |].
    + intros Hnone. apply list_elem_of_lookup_2 in Hindex.
      by destruct (Hnone p).
    + intros index' p' [= <- <-].
      assert (alter (Product.set_price price) index (products st)
              = <[index := Product.set_price price p]> (products st)) as Heq.
      { apply list_eq. intros j.
        destruct (decide (index = j)) as [<-|Hne].
        - rewrite list_lookup_alter_eq, Hindex, list_lookup_insert_eq; [done|].
          by eapply lookup_lt_Some.
        - by rewrite list_lookup_alter_ne, list_lookup_insert_ne. }
      simpl. rewrite Heq. split_and!; [done..|].
      rewrite list_lookup_insert_eq by (by eapply lookup_lt_Some). done.
  - eexists _, _. split_and!; [done..| |]; [done|]. by intros ??.
Qed.

(** ** Orders that stop before or inside the loop *)

(** [X10]
    [POST /orders] with a valid token: an empty cart is answered 400, and
    a cart sent with the token of a user who is no longer in [users] is
    answered 404; in both cases nothing is changed. *)
Theorem order_without_lines_or_buyer authHeader claim items st :
  authenticated authHeader claim →
  (items = [] →
   handle (POST_orders authHeader items) st
   = (st, error 400 "El carrito está vacío"))
  ∧ (items ≠ [] →
     (∀ u, u ∈ users st → User.id u ≠ Claim.id claim) →
     handle (POST_orders authHeader items) st
     = (st, error 404 "Usuario no encontrado")).
Proof.
  intros Hauth. simpl. unfold post_orders.
  rewrite (authenticateToken_pass _ _ _ _ Hauth). unfold create_order.
  split.
  - intros ->. done.
  - intros Hitems Hnone. rewrite bool_decide_eq_false_2 by done.
    assert (list_find (λ u, User.id u = Claim.id claim) (users st) = None)
      as ->; [|done].
    apply list_find_None, Forall_forall. intros u Hu. by apply Hnone.
Qed.

Lemma order_loop_app items1 items2 :
  ∀ nsales userId ps newSales orderTotal,
  order_loop nsales userId (items1 ++ items2) ps newSales orderTotal
  = match order_loop nsales userId items1 ps newSales orderTotal with
    | Aborted ps' r => Aborted ps' r
    | Completed ps' newSales' orderTotal' =>
        order_loop nsales userId items2 ps' newSales' orderTotal'
    end.
Proof.
  induction items1 as [|item rest IH]; intros nsales userId ps acc tot;
    [done|].
  simpl. destruct (list_find _ ps) as [[i product]|]; [|done].
  case_bool_decide; [done|]. apply IH.
Qed.

Lemma served_find_product_None items ps ps' id :
  (∀ j p, ps !! j = Some p → ps' !! j = Some (served items ps j p)) →
  length ps' = length ps →
  find_product id ps = None →
  find_product id ps' = None.
Proof.
  intros Hserved Hlen. unfold find_product.
  destruct (list_find _ ps) as [[??]|] eqn:Hfind; [done|]. intros _.
  assert (list_find (λ p, Product.id p = id) ps' = None) as ->; [|done].
  apply list_find_None, Forall_lookup. intros j p' Hj.
  destruct (lookup_lt_is_Some_2 ps j) as [p Hp].
  { apply lookup_lt_Some in Hj. lia. }
  rewrite (Hserved _ _ Hp) in Hj. injection Hj as <-. rewrite served_id.
  apply list_find_None in Hfind.
  by apply (Forall_lookup_1 _ _ _ _ Hfind Hp).
Qed.

(** [X11]
    An order whose line [k] is the first that cannot be served (unknown
    product, or more than the earlier lines have left) is answered 400
    with the message of that line, and appends no sale; but the stock
    that the lines before [k] took stays taken in memory, as if the cart
    had been those lines only.  Users, sales and the three files are as
    before. *)
Theorem rejected_order_state authHeader claim items k item st :
  authenticated authHeader claim →
  (∃ u, u ∈ users st ∧ User.id u = Claim.id claim) →
  items !! k = Some item →
  (∀ j line, j < k → items !! j = Some line →
     ∃ p, line_in_stock items (products st) j line p) →
  (∀ p, ¬ line_in_stock items (products st) k item p) →
  ∃ st' r,
    handle (POST_orders authHeader items) st = (st', r)
    ∧ status r = 400
    ∧ users st' = users st ∧ sales st' = sales st
    ∧ products_json st' = products_json st
    ∧ users_json st' = users_json st ∧ sales_json st' = sales_json st
    ∧ (∀ j p, products st !! j = Some p →
         products st' !! j = Some (served (take k items) (products st) j p))
    ∧ length (products st') = length (products st)
    ∧ (find_product (Item.id item) (products st) = None →
       r = error 400 ("Producto " +:+ pretty (Item.id item)
                      +:+ " no encontrado"))
    ∧ (∀ p, find_product (Item.id item) (products st) = Some p →
         r = error 400
               ("Stock insuficiente para " +:+ Product.name p
                +:+ ". Disponible: "
                +:+ pretty (Product.stock p
                            - ordered (Item.id item) (take k items))%Z)).
Proof.
  intros Hauth (u & Hu & Huid) Hk Hbefore Hfails. simpl. unfold post_orders.
  rewrite (authenticateToken_pass _ _ _ _ Hauth). unfold create_order.
  rewrite bool_decide_eq_false_2 by (by intros ->).
  destruct (list_find_elem_of (λ u, User.id u = Claim.id claim) _ _ Hu Huid)
    as [[index currentUser] ->].
  assert (order_loop (length (sales st)) (User.id currentUser) items
                     (products st) [] 0
          = order_loop (length (sales st)) (User.id currentUser)
                       (take k items ++ item :: drop (S k) items)
                       (products st) [] 0) as ->
    by (by rewrite take_drop_middle).
  rewrite order_loop_app.
  assert (k < length items) as Hlt by by eapply lookup_lt_Some.
  destruct (order_loop_in_stock (take k items) (length (sales st))
              (User.id currentUser) (products st) [] 0)
    as (ps & newSales & tot & Hloop).
  { intros j line [Hline Hjk]%lookup_take_Some.
    destruct (Hbefore j line Hjk Hline) as (p & Hp & Hle).
    exists p. split; [done|].
    rewrite take_take. by replace (j `min` k) with j by lia. }
  rewrite Hloop.
  apply order_loop_Completed in Hloop as (_ & _ & _ & _ & _ & Hps & Hlen).
  simpl.
  destruct (find_product (Item.id item) (products st)) as [p|] eqn:Hp.
  - pose proof (served_find_product _ _ _ _ _ Hps Hlen Hp) as Hp'.
    unfold find_product in Hp'.
    destruct (list_find _ ps) as [[i product]|]; [|done].
    injection Hp' as ->.
    rewrite bool_decide_eq_true_2.
    + eexists _, _. split_and!; try done. by intros p' [= <-].
    + simpl. destruct (decide (ordered (Item.id item) (take k items)
                               + Item.quantity item ≤ Product.stock p)%Z);
        [|lia]. by destruct (Hfails p).
  - pose proof (served_find_product_None _ _ _ _ Hps Hlen Hp) as Hp'.
    unfold find_product in Hp'.
    destruct (list_find _ ps) as [[i product]|]; [done|].
    eexists _, _. split_and!; done.
Qed.

(** ** The purchase history *)

Lemma authenticated_unique authHeader claim claim' :
  authenticated authHeader claim → authenticated authHeader claim' →
  claim = claim'.
Proof. intros (t & Ht & _ & Hv) (t' & Ht' & _ & Hv'). congruence. Qed.

Lemma filter_all {A} (P : A → Prop) `{!∀ x, Decision (P x)} (l : list A) :
  (∀ x, x ∈ l → P x) → filter P l = l.
Proof.
  induction l as [|x l IH]; intros Hl; [done|].
  rewrite filter_cons_True by (apply Hl; left).
  f_equal. apply IH. intros y Hy. apply Hl. by right.
Qed.

Lemma filter_none {A} (P : A → Prop) `{!∀ x, Decision (P x)} (l : list A) :
  (∀ x, x ∈ l → ¬ P x) → filter P l = [].
Proof.
  induction l as [|x l IH]; intros Hl; [done|].
  rewrite filter_cons_False by (apply Hl; left).
  apply IH. intros y Hy. apply Hl. by right.
Qed.

(** Serving a cart changes the stock only, so a sale shows the same
    product name and image before and after. *)
Lemma served_enrich items ps ps' sale :
  (∀ j p, ps !! j = Some p → ps' !! j = Some (served items ps j p)) →
  length ps' = length ps →
  enrich ps' sale = enrich ps sale.
Proof.
  intros Hserved Hlen. unfold enrich.
  change (snd <$> list_find (λ p, Product.id p = Sale.productId sale) ps')
    with (find_product (Sale.productId sale) ps').
  change (snd <$> list_find (λ p, Product.id p = Sale.productId sale) ps)
    with (find_product (Sale.productId sale) ps).
  destruct (find_product (Sale.productId sale) ps) as [p|] eqn:Hp.
  - by rewrite (served_find_product _ _ _ _ _ Hserved Hlen Hp).
  - by rewrite (served_find_product_None _ _ _ _ Hserved Hlen Hp).
Qed.

(** [X12]
    After a successful order, [GET /orders/my-orders] of the buyer
    answers with the entries it had before, unchanged, followed by the
    lines of the order; the history of a user with another id is the same
    as before the order. *)
Theorem order_shows_in_history authHeader claim other otherClaim items
    st st' r :
  authenticated authHeader claim →
  authenticated other otherClaim →
  handle (POST_orders authHeader items) st = (st', r) →
  status r = 201 →
  ∃ newSales,
    sales st' = sales st ++ newSales
    ∧ status (handle (GET_my_orders authHeader) st').2 = 200
    ∧ elements (handle (GET_my_orders authHeader) st').2
      = elements (handle (GET_my_orders authHeader) st).2
        ++ (enrich (products st) <$> newSales)
    ∧ (Claim.id otherClaim ≠ Claim.id claim →
       (handle (GET_my_orders other) st').2
       = (handle (GET_my_orders other) st).2).
Proof.
  intros Hauth Hother Hreq Hstatus. simpl in Hreq.
  destruct (post_orders_201 _ _ _ _ _ Hreq Hstatus)
    as (claim' & index & currentUser & ps & newSales & orderTotal & first
        & Hauth' & _ & Huser & Hloop & _ & -> & _).
  assert (claim' = claim) as -> by by eapply authenticated_unique.
  apply list_find_index_lookup in Huser as [_ Huid].
  apply order_loop_Completed in Hloop
    as (created & -> & _ & Hlen & Hlines & Hps & Hlenps).
  assert (∀ s, s ∈ created → Sale.userId s = Claim.id claim) as Hbuyer.
  { intros s (k & Hk)%list_elem_of_lookup_1.
    destruct (lookup_lt_is_Some_2 items k) as [item Hitem].
    { apply lookup_lt_Some in Hk. lia. }
    destruct (Hlines k item Hitem) as (p & _ & Hsale).
    rewrite Hsale in Hk. by injection Hk as <-. }
  exists created. simpl. unfold get_my_orders.
  rewrite !(authenticateToken_pass _ _ _ _ Hauth),
          !(authenticateToken_pass _ _ _ _ Hother).
  unfold my_orders, elements. simpl.
  assert (∀ l : list Sale.t, enrich ps <$> l = enrich (products st) <$> l)
    as Henrich.
  { intros l. apply list_fmap_ext. intros ???. by eapply served_enrich. }
  rewrite !filter_app, !Henrich. split_and!; [done..| |].
  - rewrite fmap_app. by rewrite (filter_all _ created).
  - intros Hne. rewrite (filter_none _ created), app_nil_r; [done|].
    intros s Hs. rewrite (Hbuyer s Hs). congruence.
Qed.

End Routes.

(** * The storefront cart *)

Section Storefront.
Context `{Externals}.

Lemma cart_ids_fmap (f : CartItem.t → CartItem.t) (cart : list CartItem.t) :
  (∀ item, CartItem.id (f item) = CartItem.id item) →
  CartItem.id <$> (f <$> cart) = CartItem.id <$> cart.
Proof.
  intros Hf. rewrite <- list_fmap_compose. apply list_fmap_ext.
  intros i item _. apply Hf.
Qed.

Lemma removeFromCart_ok productId cart :
  cart_ok cart → cart_ok (removeFromCart productId cart).
Proof.
  intros [Hids Hqty]. unfold removeFromCart. split.
  - eapply sublist_NoDup; [done|]. apply fmap_sublist, sublist_filter.
  - intros item [_ Hitem]%list_elem_of_filter. by apply Hqty.
Qed.

(** [X13]
    Whatever the components do with the cart, it keeps one line per
    product id, and every line keeps a quantity of at least one. *)
Theorem cart_stays_ok action cart :
  cart_ok cart → cart_ok (cart_next action cart).
Proof.
  intros Hcart. pose proof Hcart as [Hids Hqty].
  destruct action as [product|productId|productId quantity maxStock|]; simpl.
  - unfold addToCart.
    destruct (list_find _ cart) as [[i existing]|] eqn:Hfind.
    + case_bool_decide; [done|]. simpl. split.
      * rewrite cart_ids_fmap; [done|]. intros item. by case_bool_decide.
      * intros item' (item & -> & Hitem)%list_elem_of_fmap.
        specialize (Hqty item Hitem). case_bool_decide; simpl; lia.
    + simpl. apply list_find_None in Hfind. rewrite Forall_forall in Hfind.
      split.
      * rewrite fmap_app. apply NoDup_app.
        split_and!; [done| |apply NoDup_singleton].
        intros id (item & -> & Hitem)%list_elem_of_fmap
               Heq%list_elem_of_singleton.
        by apply (Hfind item Hitem).
      * intros item [Hitem| ->%list_elem_of_singleton]%elem_of_app;
          [by apply Hqty|simpl; lia].
  - by apply removeFromCart_ok.
  - unfold updateQuantity. case_bool_decide; [by apply removeFromCart_ok|].
    case_bool_decide; [done|]. simpl. split.
    + rewrite cart_ids_fmap; [done|]. intros item. by case_bool_decide.
    + intros item' (item & -> & Hitem)%list_elem_of_fmap.
      specialize (Hqty item Hitem). case_bool_decide; simpl; lia.
  - split; [apply NoDup_nil_2|]. by intros item Hitem%elem_of_nil.
Qed.

Lemma cart_line_unique (cart : list CartItem.t) a b :
  NoDup (CartItem.id <$> cart) → a ∈ cart → b ∈ cart →
  CartItem.id a = CartItem.id b → a = b.
Proof.
  intros Hids (i & Hi)%list_elem_of_lookup_1 (j & Hj)%list_elem_of_lookup_1
         Heq.
  assert (i = j) as ->; [|congruence].
  eapply (NoDup_lookup _ _ _ _ Hids); rewrite list_lookup_fmap.
  - by rewrite Hi.
  - rewrite Hj. simpl. by rewrite Heq.
Qed.

Lemma updateQuantity_within_stock item quantity cart :
  NoDup (CartItem.id <$> cart) → cart_within_stock cart → item ∈ cart →
  cart_within_stock
    (updateQuantity (CartItem.id item) quantity (CartItem.stock item) cart).1.
Proof.
  intros Hids Hstock Hitem. unfold updateQuantity.
  case_bool_decide.
  { intros line [_ Hline]%list_elem_of_filter. by apply Hstock. }
  case_bool_decide; [done|]. simpl.
  intros line' (line & -> & Hline)%list_elem_of_fmap.
  case_bool_decide as Hid; [|by apply Hstock].
  assert (line = item) as -> by by eapply cart_line_unique.
  unfold CartItem.stock in *. simpl. lia.
Qed.

(** [X14]
    From the buttons of the page, no line of the cart gets above the stock
    recorded in it: not by the add button of a product card (given that
    the card shows the stock that the line recorded), nor by the plus,
    minus and remove buttons of the sidebar. *)
Theorem cart_buttons_within_stock cart :
  cart_ok cart →
  cart_within_stock cart →
  (∀ product,
     (∀ item, item ∈ cart → CartItem.id item = Product.id product →
        CartItem.stock item = Product.stock product) →
     cart_within_stock (handleAdd product cart).1)
  ∧ (∀ item, item ∈ cart →
       cart_within_stock (click_plus item cart).1
       ∧ cart_within_stock (click_minus item cart).1)
  ∧ (∀ productId, cart_within_stock (removeFromCart productId cart)).
Proof.
  intros [Hids Hqty] Hstock. split_and!.
  - intros product Hsame. unfold handleAdd. case_bool_decide; [done|].
    unfold addToCart.
    destruct (list_find _ cart) as [[i existing]|] eqn:Hfind.
    + case_bool_decide; [done|]. simpl.
      apply list_find_index_lookup in Hfind
        as [Hexisting%list_elem_of_lookup_2 Hid].
      intros line' (line & -> & Hline)%list_elem_of_fmap.
      case_bool_decide as Hline_id; [|by apply Hstock].
      simpl in Hid.
      assert (line = existing) as ->
        by (apply (cart_line_unique cart); [done..|congruence]).
      specialize (Hsame existing Hexisting Hid).
      unfold CartItem.stock in *. simpl. lia.
    + simpl. intros line [Hline| ->%list_elem_of_singleton]%elem_of_app;
        [by apply Hstock|]. unfold CartItem.stock. simpl. lia.
  - intros item Hitem. split; by apply updateQuantity_within_stock.
  - intros productId line [_ Hline]%list_elem_of_filter. by apply Hstock.
Qed.

(** ** Totals *)

Lemma foldl_add_shift {A} (g : A → Z) (l : list A) (a : Z) :
  foldl (λ sum x, (sum + g x)%Z) a l
  = (a + foldl (λ sum x, (sum + g x)%Z) 0%Z l)%Z.
Proof.
  revert a. induction l as [|x l IH]; intros a; simpl; [lia|].
  rewrite (IH (a + g x)%Z), (IH (0 + g x)%Z). lia.
Qed.

Lemma total_cons item cart :
  total (item :: cart)
  = (CartItem.price item * CartItem.quantity item + total cart)%Z.
Proof. unfold total. simpl. by rewrite foldl_add_shift. Qed.

Lemma itemCount_cons item cart :
  itemCount (item :: cart) = (CartItem.quantity item + itemCount cart)%Z.
Proof. unfold itemCount. simpl. by rewrite foldl_add_shift. Qed.

Lemma bump_absent productId (cart : list CartItem.t) :
  (∀ item, item ∈ cart → CartItem.id item ≠ productId) →
  (λ item,
     if bool_decide (CartItem.id item = productId)
     then CartItem.set_quantity (CartItem.quantity item + 1) item
     else item) <$> cart = cart.
Proof.
  intros Habsent. rewrite <- (list_fmap_id cart) at 2.
  apply list_fmap_ext. intros i item Hitem%list_elem_of_lookup_2.
  by rewrite bool_decide_eq_false_2 by by apply Habsent.
Qed.

Lemma bump_present productId i existing (cart : list CartItem.t) :
  NoDup (CartItem.id <$> cart) →
  list_find (λ item, CartItem.id item = productId) cart = Some (i, existing) →
  let next :=
    (λ item,
       if bool_decide (CartItem.id item = productId)
       then CartItem.set_quantity (CartItem.quantity item + 1) item
       else item) <$> cart in
  itemCount next = (itemCount cart + 1)%Z
  ∧ total next = (total cart + CartItem.price existing)%Z.
Proof.
  revert i. induction cart as [|line cart IH]; intros i Hids Hfind; [done|].
  cbv zeta in *. rewrite fmap_cons, !total_cons, !itemCount_cons.
  rewrite fmap_cons in Hids. apply NoDup_cons in Hids as [Hline Hids].
  simpl in Hfind. destruct (decide (CartItem.id line = productId)) as [Hid|Hid].
  - injection Hfind as <- <-. rewrite bool_decide_eq_true_2 by done.
    rewrite bump_absent.
    + unfold CartItem.price. simpl. lia.
    + intros item Hitem Hitem_id. apply Hline, list_elem_of_fmap.
      exists item. split; [congruence|done].
  - rewrite bool_decide_eq_false_2 by done.
    destruct (list_find _ cart) as [[j found]|] eqn:Hfound; [|done].
    injection Hfind as <- <-.
    destruct (IH j Hids eq_refl) as [-> ->]. lia.
Qed.

(** [X15]
    Adding a product to a cart with one line per product either raises the
    alert of the stock limit and leaves the cart as it is, or raises the
    item count by one and the total by one unit price: the price recorded
    in the line when the product is already in the cart, the price of the
    product when the line is new. *)
Theorem addToCart_counts product cart :
  cart_ok cart →
  (∀ message, (addToCart product cart).2 = Some message →
     (addToCart product cart).1 = cart
     ∧ message = max_stock_alert (Product.stock product))
  ∧ ((addToCart product cart).2 = None →
     itemCount (addToCart product cart).1 = (itemCount cart + 1)%Z
     ∧ total (addToCart product cart).1
       = (total cart
          + match list_find (λ item, CartItem.id item = Product.id product)
                            cart with
            | Some (_, existing) => CartItem.price existing
            | None => Product.price product
            end)%Z).
Proof.
  intros [Hids _]. unfold addToCart.
  destruct (list_find _ cart) as [[i existing]|] eqn:Hfind.
  - case_bool_decide; simpl.
    + split; [by intros message [= <-]|done].
    + split; [done|]. intros _. by eapply bump_present.
  - simpl. split; [done|]. intros _.
    unfold itemCount, total. rewrite !foldl_snoc.
    unfold CartItem.price. simpl. split; lia.
Qed.

(** ** From the cart to the order *)

Lemma ordered_absent id items :
  (∀ item, item ∈ items → Item.id item ≠ id) → ordered id items = 0%Z.
Proof.
  induction items as [|item items IH]; intros Habsent; [done|].
  rewrite ordered_cons, decide_False by (apply Habsent; left).
  rewrite IH; [done|]. intros x Hx. apply Habsent. by right.
Qed.

Lemma ordered_take_NoDup items k item :
  NoDup (Item.id <$> items) → items !! k = Some item →
  ordered (Item.id item) (take k items) = 0%Z.
Proof.
  intros Hids Hk. apply ordered_absent.
  intros x (j & Hj & Hjk)%elem_of_take Heq.
  assert (j = k); [|lia].
  eapply (NoDup_lookup _ _ _ _ Hids); rewrite list_lookup_fmap.
  - by rewrite Hj.
  - rewrite Hk. simpl. by rewrite Heq.
Qed.

Lemma ordered_NoDup items item :
  NoDup (Item.id <$> items) → item ∈ items →
  ordered (Item.id item) items = Item.quantity item.
Proof.
  intros Hids (k & Hk)%list_elem_of_lookup_1.
  rewrite <- (take_drop_middle items k item Hk) in Hids |- *.
  rewrite fmap_app, fmap_cons in Hids.
  apply NoDup_app in Hids as (_ & Hbefore & [Hafter _]%NoDup_cons).
  assert (∀ l1 l2, ordered (Item.id item) (l1 ++ l2)
                   = (ordered (Item.id item) l1
                      + ordered (Item.id item) l2)%Z) as Happ.
  { intros l1 l2. induction l1 as [|x l1 IH]; [simpl; lia|].
    rewrite <- app_comm_cons, !ordered_cons, IH. lia. }
  rewrite Happ, ordered_cons, decide_True by done.
  rewrite !ordered_absent; [lia| |].
  - intros x Hx Heq. apply Hafter, list_elem_of_fmap. by exists x.
  - intros x Hx Heq. apply (Hbefore (Item.id x)).
    + apply list_elem_of_fmap. by exists x.
    + rewrite Heq. left.
Qed.

Lemma sum_totals_cart (created : list Sale.t) (cart : list CartItem.t) :
  length created = length cart →
  (∀ k s line, created !! k = Some s → cart !! k = Some line →
     Sale.total s = (CartItem.price line * CartItem.quantity line)%Z) →
  sum_totals created = total cart.
Proof.
  revert cart. induction created as [|s created IH]; intros [|line cart];
    try done.
  intros [= Hlen] Hlines. rewrite total_cons. simpl.
  rewrite (Hlines 0 s line eq_refl eq_refl), (IH cart Hlen); [done|].
  intros k s' line' Hs' Hline'. by apply (Hlines (S k)).
Qed.

(** [X16]
    A cart with one line per product, each asking for a known product and
    for no more than its current stock, sent at checkout by a buyer whose
    account exists, is accepted with 201: one sale per line is appended,
    the stock of the product of each line goes down by the quantity of the
    line, and, when the prices recorded in the cart are those of the
    server, the total of the order is the total that the cart showed. *)
Theorem checkout_accepted token claim cart st :
  authenticated (checkout_header token) claim →
  (∃ u, u ∈ users st ∧ User.id u = Claim.id claim) →
  cart ≠ [] →
  NoDup (CartItem.id <$> cart) →
  (∀ line, line ∈ cart →
     ∃ p, find_product (CartItem.id line) (products st) = Some p
          ∧ (CartItem.quantity line ≤ Product.stock p)%Z) →
  ∃ st' r newSales,
    handle (POST_orders (checkout_header token) (checkout_items cart)) st
    = (st', r)
    ∧ status r = 201
    ∧ sales st' = sales st ++ newSales
    ∧ length newSales = length cart
    ∧ (∀ line p, line ∈ cart →
         find_product (CartItem.id line) (products st) = Some p →
         find_product (CartItem.id line) (products st')
         = Some (Product.sub_stock (CartItem.quantity line) p))
    ∧ ((∀ line p, line ∈ cart →
          find_product (CartItem.id line) (products st) = Some p →
          Product.price p = CartItem.price line) →
       field "order" (body r) ≫= field "total" = Some (JNum (total cart))).
Proof.
  intros Hauth (u & Hu & Huid) Hcart Hids Hstock. simpl. unfold post_orders.
  rewrite (authenticateToken_pass _ _ _ _ Hauth). unfold create_order.
  assert (Item.id <$> checkout_items cart = CartItem.id <$> cart) as Hitem_ids.
  { unfold checkout_items. rewrite <- list_fmap_compose. done. }
  rewrite bool_decide_eq_false_2 by (by destruct cart).
  destruct (list_find_elem_of (λ u, User.id u = Claim.id claim) _ _ Hu Huid)
    as [[index currentUser] ->].
  destruct (order_loop_in_stock (checkout_items cart) (length (sales st))
              (User.id currentUser) (products st) [] 0)
    as (ps & newSales & tot & Hloop).
  { intros k item Hk.
    assert (ordered (Item.id item) (take k (checkout_items cart)) = 0%Z)
      as Hzero by (apply ordered_take_NoDup; [by rewrite Hitem_ids|done]).
    unfold checkout_items in Hk. rewrite list_lookup_fmap in Hk.
    destruct (cart !! k) as [line|] eqn:Hline; [|done].
    injection Hk as <-. apply list_elem_of_lookup_2 in Hline.
    destruct (Hstock line Hline) as (p & Hp & Hle).
    exists p. split; [done|]. rewrite Hzero. simpl. lia. }
  rewrite Hloop.
  apply order_loop_Completed in Hloop
    as (created & -> & -> & Hlen & Hlines & Hps & Hlenps).
  simpl in *. unfold checkout_items in Hlen. rewrite length_fmap in Hlen.
  destruct created as [|first created];
    [destruct cart; [done|simpl in Hlen; lia]|].
  simpl. eexists _, _, (first :: created). split_and!; try done.
  - intros line p Hline Hp. simpl.
    erewrite (served_find_product _ _ _ _ _ Hps Hlenps Hp). do 2 f_equal.
    apply (ordered_NoDup _ (Item.mk (CartItem.id line)
                                    (CartItem.quantity line)));
      [by rewrite Hitem_ids|].
    unfold checkout_items. apply list_elem_of_fmap. by exists line.
  - intros Hprices.
    transitivity (Some (JNum (0 + sum_totals (first :: created))));
      [reflexivity|].
    rewrite Z.add_0_l. do 2 f_equal.
    apply (sum_totals_cart (first :: created) cart); [done|].
    intros k s line Hs Hline.
    destruct (Hlines k (Item.mk (CartItem.id line) (CartItem.quantity line)))
      as (p & [Hp _] & Hsale).
    { unfold checkout_items. by rewrite list_lookup_fmap, Hline. }
    rewrite Hsale in Hs. injection Hs as <-. simpl in *.
    rewrite (Hprices line p); [done| |done].
    by eapply list_elem_of_lookup_2.
Qed.

(** ** The category filter *)

(** [X17]
    Every category that [GET /categories] offers selects at least one
    product; a category other than [Todos] selects exactly the products of
    that category, in catalog order; and [Todos] selects the whole
    catalog, so a category of that very name cannot be singled out. *)
Theorem category_filter (ps : list Product.t) :
  (∀ c, c ∈ categories ps → filteredProducts c ps ≠ [])
  ∧ (∀ c, c ≠ "Todos" →
       filteredProducts c ps = filter (λ p, Product.category p = c) ps
       ∧ ∀ p, p ∈ filteredProducts c ps ↔ p ∈ ps ∧ Product.category p = c)
  ∧ filteredProducts "Todos" ps = ps.
Proof.
  split_and!.
  - intros c Hc Hempty. unfold categories, new_Set in Hc.
    apply foldl_set_add_elem in Hc as [[]%elem_of_nil|Hc].
    apply list_elem_of_fmap in Hc as (p & -> & Hp).
    unfold filteredProducts in Hempty.
    case_bool_decide; [rewrite Hempty in Hp; by apply elem_of_nil in Hp|].
    by eapply (filter_nil_not_elem_of _ _ p Hempty).
  - intros c Hc. unfold filteredProducts.
    rewrite bool_decide_eq_false_2 by done. split; [done|].
    intros p. rewrite list_elem_of_filter. tauto.
  - done.
Qed.

End Storefront.

(** * Identifiers and the first version of the server *)

Section Identifiers.
Context `{Externals}.

(** [X18]
    User ids are not kept distinct.  Take users numbered 1, 2, ... by
    position; let an administrator delete one that has no sale and is not
    the last, and let a visitor then register with a new email.  Both
    requests succeed, and the new account gets the id that the last of the
    earlier accounts still has. *)
Theorem user_ids_can_repeat authHeader claim i u name email password
    phone address st :
  authenticated authHeader claim →
  Claim.role claim = "admin" →
  (∀ j v, users st !! j = Some v → User.id v = (Z.of_nat j + 1)%Z) →
  users st !! i = Some u →
  S i < length (users st) →
  (∀ s, s ∈ sales st → Sale.userId s ≠ User.id u) →
  name ≠ "" → email ≠ "" → password ≠ "" →
  (∀ v, v ∈ users st → User.email v ≠ email) →
  ∃ st1 r1 st2 r2 last new,
    handle (DELETE_user authHeader (User.id u)) st = (st1, r1)
    ∧ status r1 = 200
    ∧ handle (POST_auth_register
                (mkRegisterBody (Some name) (Some email) (Some password)
                                phone address)) st1 = (st2, r2)
    ∧ status r2 = 201
    ∧ last ∈ users st ∧ last ∈ users st2
    ∧ new ∈ users st2 ∧ User.email new = email
    ∧ last ≠ new
    ∧ User.id new = User.id last
    ∧ ¬ NoDup (User.id <$> users st2).
Proof.
  intros Hauth Hadmin Hseq Hi Hlt Hnosale Hname Hemail Hpassword Hnew.
  simpl. unfold delete_user.
  rewrite (authenticateToken_pass _ _ _ _ Hauth). unfold isAdmin.
  rewrite bool_decide_eq_false_2 by (by intros []). unfold remove_user.
  rewrite bool_decide_eq_false_2.
  2:{ intros (s & Hs & Hsid)%filter_length_pos. by apply (Hnosale s). }
  assert (list_find (λ v, User.id v = User.id u) (users st) = Some (i, u))
    as ->.
  { apply list_find_Some. split_and!; [done..|].
    intros j v Hj Hji. rewrite (Hseq _ _ Hj), (Hseq _ _ Hi). lia. }
  destruct (lookup_lt_is_Some_2 (users st) (length (users st) - 1))
    as [last Hlast]; [lia|].
  set (new := User.mk (Z.of_nat (length (delete i (users st))) + 1) name email
                      (Some (bcrypt_hash password)) (or_empty phone)
                      (or_empty address) "customer").
  assert (length (delete i (users st)) = length (users st) - 1) as Hlen.
  { rewrite length_delete; [done|]. by eexists. }
  assert (delete i (users st) !! (length (users st) - 2) = Some last)
    as Hlast1.
  { rewrite list_lookup_delete_ge by lia. rewrite <- Hlast. f_equal. lia. }
  assert (list_find (λ v, User.email v = email) (delete i (users st)) = None)
    as Hnone.
  { apply list_find_None, Forall_forall.
    intros v Hv%list_elem_of_delete_inv. by apply Hnew. }
  eexists _, _, _, _, last, new.
  split; [reflexivity|]. split; [done|].
  unfold post_auth_register. simpl.
  rewrite !bool_decide_eq_false_2 by done. simpl. rewrite Hnone.
  split_and!; try done.
  - by eapply list_elem_of_lookup_2.
  - simpl. apply elem_of_app. left. by eapply list_elem_of_lookup_2.
  - simpl. apply elem_of_app. right. left.
  - intros ->. apply list_elem_of_lookup_2 in Hlast. by apply (Hnew _ Hlast).
  - simpl. rewrite Hlen, (Hseq _ _ Hlast). lia.
  - simpl. intros Hids.
    assert (length (users st) - 2 = length (users st) - 1); [|lia].
    eapply (NoDup_lookup _ _ _ _ Hids); rewrite list_lookup_fmap.
    + rewrite lookup_app_l by lia. by rewrite Hlast1.
    + rewrite lookup_app_r by lia.
      replace (length (users st) - 1 - length (delete i (users st))) with 0
        by lia.
      simpl. f_equal. rewrite Hlen, (Hseq _ _ Hlast). lia.
Qed.

(** [X19]
    [POST /sales] of the first version looks neither at the stock nor at
    the sign of the quantity: with a known user and a known product it
    always records the sale, at [price × quantity], and leaves every
    product as it is; with an unknown user or product it answers 400 and
    changes nothing. *)
Theorem sale_registration_ignores_stock userId productId quantity st :
  products (legacy_handle (L_POST_sales userId productId quantity) st).1
  = products st
  ∧ users (legacy_handle (L_POST_sales userId productId quantity) st).1
    = users st
  ∧ (∀ u p, u ∈ users st → User.id u = userId →
       find_product productId (products st) = Some p →
       ∃ st' r,
         legacy_handle (L_POST_sales userId productId quantity) st = (st', r)
         ∧ status r = 201
         ∧ sales st'
           = sales st ++ [Sale.mk (Z.of_nat (length (sales st)) + 1)
                                  userId productId quantity
                                  (Product.price p * quantity) (now 0)]
         ∧ sales_json st' = sales st')
  ∧ ((∀ u, u ∈ users st → User.id u ≠ userId)
     ∨ find_product productId (products st) = None →
     legacy_handle (L_POST_sales userId productId quantity) st
     = (st, error 400 "Usuario o producto inválido")).
Proof.
  simpl. unfold legacy_post_sales, find_product. split_and!.
  - destruct (list_find _ (users st)) as [[??]|]; [|done].
    by destruct (list_find _ (products st)) as [[??]|].
  - destruct (list_find _ (users st)) as [[??]|]; [|done].
    by destruct (list_find _ (products st)) as [[??]|].
  - intros u p Hu Huid Hp.
    destruct (list_find_elem_of (λ u, User.id u = userId) _ _ Hu Huid)
      as [[? ?] ->].
    destruct (list_find _ (products st)) as [[? p']|]; [|done].
    injection Hp as ->. by eexists _, _.
  - intros [Hnone|Hnone].
    + assert (list_find (λ u, User.id u = userId) (users st) = None) as ->;
        [|done].
      apply list_find_None, Forall_forall. intros u Hu. by apply Hnone.
    + destruct (list_find _ (products st)) as [[??]|]; [done|].
      by destruct (list_find _ (users st)) as [[??]|].
Qed.

(** [X20]
    [POST /orders] of the first version creates the account of a buyer
    whose email is unknown before it looks at the lines: the account is
    added, without password, and [users.json] is rewritten whatever the
    outcome of the order; a buyer whose email is known is not added
    again. *)
Theorem legacy_order_registers_buyer buyer items st :
  items ≠ [] →
  ((∀ u, u ∈ users st → User.email u ≠ buyer_email buyer) →
   users (legacy_handle (L_POST_orders (Some buyer) items) st).1
   = users st ++ [User.mk (Z.of_nat (length (users st)) + 1)
                          (buyer_name buyer) (buyer_email buyer) None
                          (buyer_phone buyer) (buyer_address buyer)
                          "customer"]
   ∧ users_json (legacy_handle (L_POST_orders (Some buyer) items) st).1
     = users (legacy_handle (L_POST_orders (Some buyer) items) st).1)
  ∧ ((∃ u, u ∈ users st ∧ User.email u = buyer_email buyer) →
     users (legacy_handle (L_POST_orders (Some buyer) items) st).1
     = users st).
Proof.
  intros Hitems. simpl. unfold legacy_post_orders.
  rewrite bool_decide_eq_false_2 by done. split.
  - intros Hnone.
    assert (list_find (λ u, User.email u = buyer_email buyer) (users st)
            = None) as ->.
    { apply list_find_None, Forall_forall. intros u Hu. by apply Hnone. }
    destruct (order_loop _ _ _ _ _ _) as [?|? newSales ?]; [done|].
    by destruct (newSales !! 0).
  - intros (u & Hu & Hemail).
    destruct (list_find_elem_of (λ u, User.email u = buyer_email buyer)
                _ _ Hu Hemail) as [[? ?] ->].
    destruct (order_loop _ _ _ _ _ _) as [?|? newSales ?]; [done|].
    by destruct (newSales !! 0).
Qed.

End Identifiers.

(** ** Requests one after another, and requests that overlap *)

(** [X5]
    When the users have distinct emails and the requests are handled one
    at a time, each to its response before the next one starts, the users
    still have distinct emails after any number of requests: the sign-up
    refuses an email that is taken, and the profile update does not change
    the email. *)
Theorem emails_stay_unique requests st :
  emails_unique st → emails_unique (run requests st).
Proof.
  unfold run. revert st.
  induction requests as [|[env req] rest IH]; intros st Hst; [done|].
  simpl. apply IH. by apply handle_emails_unique.
Qed.

(** The sign-up handler is its check, and, when the check passes, the
    remainder after the [await] run on the same state. *)
Lemma post_auth_register_await `{Externals} b st :
  post_auth_register b st
  = match register_check b st with
    | Some r => (st, r)
    | None => register_commit b st
    end.
Proof.
  unfold post_auth_register, register_check, register_commit.
  destruct (_ || _); [done|].
  by destruct (list_find _ (users st)) as [[??]|].
Qed.

(** [X21]
    Two sign-ups with one new email that overlap: when both have passed
    the check for an existing email before either has appended its user
    (the handler awaits the hash between the check and the append), both
    are answered 201, and two users with that email are stored, with
    consecutive ids.  The first is answered as it would be alone; the
    second, had it started after the first was done, would have been
    refused with 400. *)
Theorem overlapping_registrations (first second : Externals) b1 b2 st :
  register_check b1 st = None →
  register_check b2 st = None →
  reg_email b1 = reg_email b2 →
  ∃ st1 r1 st2 r2 u1 u2,
    register_commit (H:=first) b1 st = (st1, r1)
    ∧ register_commit (H:=second) b2 st1 = (st2, r2)
    ∧ status r1 = 201 ∧ status r2 = 201
    ∧ users st2 = users st ++ [u1; u2]
    ∧ User.email u1 = or_empty (reg_email b1)
    ∧ User.email u2 = or_empty (reg_email b1)
    ∧ User.id u1 = (Z.of_nat (length (users st)) + 1)%Z
    ∧ User.id u2 = (Z.of_nat (length (users st)) + 2)%Z
    ∧ ¬ emails_unique st2
    ∧ post_auth_register (H:=first) b1 st = (st1, r1)
    ∧ post_auth_register (H:=second) b2 st1
      = (st1, error 400 "El email ya está registrado").
Proof.
  intros Hcheck1 Hcheck2 Hemail.
  do 6 eexists. split; [reflexivity|]. split; [reflexivity|].
  split; [reflexivity|]. split; [reflexivity|]. simpl.
  split; [by rewrite <- (assoc_L (++))|].
  split; [reflexivity|].
  split; [by rewrite Hemail|]. split; [reflexivity|].
  split; [rewrite length_app; simpl; lia|].
  split.
  { unfold emails_unique. simpl.
    rewrite !fmap_app, <- (assoc_L (++)). simpl.
    intros (_ & _ & Hdup)%NoDup_app. apply NoDup_cons in Hdup as [Hnotin _].
    apply Hnotin. rewrite Hemail. apply list_elem_of_here. }
  split; [by rewrite post_auth_register_await, Hcheck1|].
  revert Hcheck2. unfold register_check, post_auth_register.
  destruct (_ || _); [done|].
  destruct (list_find _ (users st)) as [[??]|] eqn:Hfind; [done|]. intros _.
  simpl. rewrite (list_find_app_r _ _ _ Hfind). simpl.
  by rewrite Hemail, decide_True.
Qed.

(** ** The further properties on concrete requests *)

Lemma protected_route_needs_token_witness :
  protected_header (GET_sales (Some "Bearer")) = Some (Some "Bearer")
  ∧ bearer_token (Some "Bearer") = None
  ∧ handle (H:=stub) (GET_sales (Some "Bearer")) shop
    = (shop, error 401 "Token no proporcionado")
  ∧ protected_header (GET_sales (Some "Bearer t-eve"))
    = Some (Some "Bearer t-eve")
  ∧ bearer_token (Some "Bearer t-eve") = Some "t-eve"
  ∧ jwt_verify (Externals:=stub) "t-eve" = None
  ∧ handle (H:=stub) (GET_sales (Some "Bearer t-eve")) shop
    = (shop, error 403 "Token inválido o expirado").
Proof.
  split; [reflexivity|]. split; [reflexivity|]. split.
  { exact (proj1 (protected_route_needs_token (H:=stub)
                    (GET_sales (Some "Bearer")) (Some "Bearer") shop eq_refl)
                 (or_introl eq_refl)). }
  split; [reflexivity|]. split; [reflexivity|]. split; [reflexivity|].
  exact (proj2 (protected_route_needs_token (H:=stub)
                  (GET_sales (Some "Bearer t-eve")) (Some "Bearer t-eve")
                  shop eq_refl)
               "t-eve" eq_refl ltac:(discriminate) eq_refl).
Defined.

Lemma admin_route_needs_admin_witness :
  admin_route_header (DELETE_user ana_header 1) = Some ana_header
  ∧ authenticated (H:=stub) ana_header ana_claim
  ∧ Claim.role ana_claim ≠ "admin"
  ∧ handle (H:=stub) (DELETE_user ana_header 1) shop
    = (shop, error 403 "Acceso denegado. Se requiere rol de administrador").
Proof.
  split_and!; [reflexivity|apply ana_authenticated|discriminate|].
  exact (admin_route_needs_admin (H:=stub) (DELETE_user ana_header 1)
           ana_header ana_claim shop eq_refl ana_authenticated
           ltac:(discriminate)).
Defined.

Lemma bearer_token_second_word_witness :
  has_space "Token" = false
  ∧ has_space "t-ana" = false
  ∧ "Token" ≠ ""
  ∧ bearer_token (Some ("Token" +:+ " " +:+ "t-ana")) = Some "t-ana"
  ∧ bearer_token (checkout_header "t-ana") = Some "t-ana"
  ∧ bearer_token (Some "Token") = None.
Proof.
  destruct (bearer_token_second_word "Token" "t-ana" eq_refl eq_refl)
    as (Hsecond & Hcheckout & Hone).
  split_and!; [reflexivity|reflexivity|discriminate|exact Hsecond
              |exact Hcheckout|].
  exact (Hone ltac:(discriminate)).
Defined.

Lemma sale_ids_stay_sequential_witness :
  sale_ids_sequential shop
  ∧ (∀ req, sale_ids_sequential (handle (H:=stub) req shop).1
            ∧ NoDup (Sale.id <$> sales (handle (H:=stub) req shop).1))
  ∧ (∀ req, sale_ids_sequential (legacy_handle (H:=stub) req shop).1
            ∧ NoDup (Sale.id <$> sales (legacy_handle (H:=stub) req shop).1)).
Proof.
  assert (sale_ids_sequential shop) as Hshop by (intros i s; discriminate).
  split; [exact Hshop|].
  exact (sale_ids_stay_sequential (H:=stub) shop Hshop).
Defined.

Lemma emails_stay_unique_witness :
  let requests :=
    [(stub, POST_auth_register beto_body);
     (stub_beto, POST_auth_register beto_body);
     (stub_beto,
      PUT_auth_profile (Some "Bearer t-beto") (Some "Beto B.") None None)] in
  emails_unique shop ∧ emails_unique (run requests shop).
Proof.
  intros requests.
  assert (emails_unique shop) as Hshop.
  { unfold emails_unique. vm_compute. apply NoDup_cons.
    split; [|apply NoDup_singleton].
    intros Hin%list_elem_of_singleton. discriminate. }
  split; [exact Hshop|].
  exact (emails_stay_unique requests shop Hshop).
Defined.

Lemma overlapping_registrations_witness :
  let b2 := mkRegisterBody (Some "Beto B.") (Some "beto@mail.com")
                           (Some "other") None None in
  register_check beto_body shop = None
  ∧ register_check b2 shop = None
  ∧ reg_email beto_body = reg_email b2
  ∧ ∃ st1 r1 st2 r2 u1 u2,
      register_commit (H:=stub) beto_body shop = (st1, r1)
      ∧ register_commit (H:=stub_beto) b2 st1 = (st2, r2)
      ∧ status r1 = 201 ∧ status r2 = 201
      ∧ users st2 = users shop ++ [u1; u2]
      ∧ User.email u1 = or_empty (reg_email beto_body)
      ∧ User.email u2 = or_empty (reg_email beto_body)
      ∧ User.id u1 = (Z.of_nat (length (users shop)) + 1)%Z
      ∧ User.id u2 = (Z.of_nat (length (users shop)) + 2)%Z
      ∧ ¬ emails_unique st2
      ∧ post_auth_register (H:=stub) beto_body shop = (st1, r1)
      ∧ post_auth_register (H:=stub_beto) b2 st1
        = (st1, error 400 "El email ya está registrado").
Proof.
  intros b2.
  split; [reflexivity|]. split; [reflexivity|]. split; [reflexivity|].
  exact (overlapping_registrations stub stub_beto beto_body b2 shop
           eq_refl eq_refl eq_refl).
Defined.

Lemma admin_role_never_granted_witness :
  User.role admin = "admin"
  ∧ (∀ req, admin ∈ users (handle (H:=stub) req shop).1 →
            ∃ u, u ∈ users shop ∧ same_account admin u)
  ∧ (∀ req, admin ∈ users (legacy_handle (H:=stub) req shop).1 →
            ∃ u, u ∈ users shop ∧ same_account admin u).
Proof.
  split; [reflexivity|].
  exact (admin_role_never_granted (H:=stub) shop admin eq_refl).
Defined.


Lemma register_then_login_witness :
  let name := "Beto" in
  let email := "beto@mail.com" in
  let password := "secret" in
  name ≠ "" ∧ email ≠ "" ∧ password ≠ ""
  ∧ (∀ u, u ∈ users shop → User.email u ≠ email)
  ∧ bcrypt_compare (Externals:=stub_beto) password
      (bcrypt_hash (Externals:=stub) password) = true
  ∧ ∃ st' r r',
      handle (H:=stub)
        (POST_auth_register
           (mkRegisterBody (Some name) (Some email) (Some password)
                           None (Some "Calle 2"))) shop = (st', r)
      ∧ status r = 201
      ∧ users st'
        = users shop ++ [User.mk (Z.of_nat (length (users shop)) + 1) name
                                 email
                                 (Some (bcrypt_hash (Externals:=stub)
                                                    password))
                                 (or_empty None) (or_empty (Some "Calle 2"))
                                 "customer"]
      ∧ users_json st' = users st'
      ∧ products st' = products shop ∧ sales st' = sales shop
      ∧ field "token" (body r)
        = Some (JStr (jwt_sign (Externals:=stub)
                        (Claim.mk (Z.of_nat (length (users shop)) + 1)
                                  email "customer")))
      ∧ handle (H:=stub_beto)
          (POST_auth_login (Some email) (Some password)) st'
        = (st', r')
      ∧ status r' = 200
      ∧ field "token" (body r')
        = Some (JStr (jwt_sign (Externals:=stub_beto)
                        (Claim.mk (Z.of_nat (length (users shop)) + 1)
                                  email "customer")))
      ∧ field "user" (body r') = field "user" (body r).
Proof.
  intros name email password.
  assert (∀ u, u ∈ users shop → User.email u ≠ email) as Hnew.
  { intros u Hu.
    repeat (apply elem_of_cons in Hu as [->|Hu]; [discriminate|]).
    by apply elem_of_nil in Hu. }
  split_and!; [discriminate|discriminate|discriminate|exact Hnew|reflexivity|].
  exact (register_then_login (H:=stub) stub_beto name email password None
           (Some "Calle 2") shop ltac:(discriminate) ltac:(discriminate)
           ltac:(discriminate) Hnew eq_refl).
Defined.

Lemma price_update_frame_witness :
  authenticated (H:=stub) admin_header admin_claim
  ∧ Claim.role admin_claim = "admin"
  ∧ list_find (λ p, Product.id p = 2%Z) (products shop) = Some (1, mouse)
  ∧ (∀ p, p ∈ products shop → Product.id p ≠ 9%Z)
  ∧ (∃ st' r,
       handle (H:=stub) (PUT_product admin_header 2 (-5)) shop = (st', r)
       ∧ users st' = users shop ∧ sales st' = sales shop
       ∧ status r = 200
       ∧ products st' = <[1 := Product.set_price (-5) mouse]> (products shop)
       ∧ products_json st' = products st'
       ∧ field "product" (body r)
         = Some (JObj (Product.to_obj (Product.set_price (-5) mouse))))
  ∧ handle (H:=stub) (PUT_product admin_header 9 70) shop
    = (shop, error 404 "Producto no encontrado").
Proof.
  assert (∀ p, p ∈ products shop → Product.id p ≠ 9%Z) as Hnone.
  { intros p Hp.
    repeat (apply elem_of_cons in Hp as [->|Hp]; [discriminate|]).
    by apply elem_of_nil in Hp. }
  split_and!; [apply admin_authenticated|reflexivity|reflexivity|exact Hnone
              | |].
  - destruct (price_update_frame (H:=stub) admin_header admin_claim 2 (-5)
                shop admin_authenticated eq_refl)
      as (st' & r & Hreq & Husers & Hsales & _ & Hknown).
    destruct (Hknown 1 mouse eq_refl) as (? & ? & ? & ?).
    exists st', r. split_and!; assumption.
  - destruct (price_update_frame (H:=stub) admin_header admin_claim 9 70
                shop admin_authenticated eq_refl)
      as (st' & r & Hreq & _ & _ & Hunknown & _).
    destruct (Hunknown Hnone) as [-> ->]. exact Hreq.
Defined.

Lemma order_without_lines_or_buyer_witness :
  let alone := set_users [admin] shop in
  authenticated (H:=stub) ana_header ana_claim
  ∧ handle (H:=stub) (POST_orders ana_header []) shop
    = (shop, error 400 "El carrito está vacío")
  ∧ [Item.mk 1 1] ≠ []
  ∧ (∀ u, u ∈ users alone → User.id u ≠ Claim.id ana_claim)
  ∧ handle (H:=stub) (POST_orders ana_header [Item.mk 1 1]) alone
    = (alone, error 404 "Usuario no encontrado").
Proof.
  intros alone.
  assert (∀ u, u ∈ users alone → User.id u ≠ Claim.id ana_claim) as Hnone.
  { intros u Hu.
    repeat (apply elem_of_cons in Hu as [->|Hu]; [discriminate|]).
    by apply elem_of_nil in Hu. }
  split_and!; [apply ana_authenticated| |discriminate|exact Hnone|].
  - exact (proj1 (order_without_lines_or_buyer (H:=stub) ana_header ana_claim
                    [] shop ana_authenticated) eq_refl).
  - exact (proj2 (order_without_lines_or_buyer (H:=stub) ana_header ana_claim
                    [Item.mk 1 1] alone ana_authenticated)
                 ltac:(discriminate) Hnone).
Defined.

Lemma rejected_order_state_witness :
  let items := [Item.mk 1 2; Item.mk 2 5] in
  let item := Item.mk 2 5 in
  authenticated (H:=stub) ana_header ana_claim
  ∧ (∃ u, u ∈ users shop ∧ User.id u = Claim.id ana_claim)
  ∧ items !! 1 = Some item
  ∧ (∀ j line, j < 1 → items !! j = Some line →
       ∃ p, line_in_stock items (products shop) j line p)
  ∧ (∀ p, ¬ line_in_stock items (products shop) 1 item p)
  ∧ ∃ st' r,
      handle (H:=stub) (POST_orders ana_header items) shop = (st', r)
      ∧ status r = 400
      ∧ users st' = users shop ∧ sales st' = sales shop
      ∧ products_json st' = products_json shop
      ∧ users_json st' = users_json shop ∧ sales_json st' = sales_json shop
      ∧ (∀ j p, products shop !! j = Some p →
           products st' !! j
           = Some (served (take 1 items) (products shop) j p))
      ∧ length (products st') = length (products shop)
      ∧ (find_product (Item.id item) (products shop) = None →
         r = error 400 ("Producto " +:+ pretty (Item.id item)
                        +:+ " no encontrado"))
      ∧ (∀ p, find_product (Item.id item) (products shop) = Some p →
           r = error 400
                 ("Stock insuficiente para " +:+ Product.name p
                  +:+ ". Disponible: "
                  +:+ pretty (Product.stock p
                              - ordered (Item.id item) (take 1 items))%Z)).
Proof.
  intros items item.
  assert (∃ u, u ∈ users shop ∧ User.id u = Claim.id ana_claim) as Huser.
  { exists ana. split; [right; left|reflexivity]. }
  assert (∀ j line, j < 1 → items !! j = Some line →
            ∃ p, line_in_stock items (products shop) j line p) as Hbefore.
  { intros [|j] line Hj Hline; [|lia].
    vm_compute in Hline. injection Hline as <-.
    exists laptop. split; [reflexivity|vm_compute; discriminate]. }
  assert (∀ p, ¬ line_in_stock items (products shop) 1 item p) as Hfails.
  { intros p [Hp Hle]. vm_compute in Hp. injection Hp as <-.
    vm_compute in Hle. by apply Hle. }
  split_and!; [apply ana_authenticated|exact Huser|reflexivity|exact Hbefore
              |exact Hfails|].
  exact (rejected_order_state (H:=stub) ana_header ana_claim items 1 item shop
           ana_authenticated Huser eq_refl Hbefore Hfails).
Defined.

Lemma order_shows_in_history_witness :
  let items := [Item.mk 1 2; Item.mk 2 1] in
  let res := handle (H:=stub) (POST_orders ana_header items) shop in
  authenticated (H:=stub) ana_header ana_claim
  ∧ authenticated (H:=stub) admin_header admin_claim
  ∧ status res.2 = 201
  ∧ Claim.id admin_claim ≠ Claim.id ana_claim
  ∧ ∃ newSales,
      sales res.1 = sales shop ++ newSales
      ∧ status (handle (H:=stub) (GET_my_orders ana_header) res.1).2 = 200
      ∧ elements (handle (H:=stub) (GET_my_orders ana_header) res.1).2
        = elements (handle (H:=stub) (GET_my_orders ana_header) shop).2
          ++ (enrich (products shop) <$> newSales)
      ∧ (handle (H:=stub) (GET_my_orders admin_header) res.1).2
        = (handle (H:=stub) (GET_my_orders admin_header) shop).2.
Proof.
  intros items res.
  split_and!; [apply ana_authenticated|apply admin_authenticated|reflexivity
              |discriminate|].
  destruct (order_shows_in_history (H:=stub) ana_header ana_claim admin_header
              admin_claim items shop res.1 res.2 ana_authenticated
              admin_authenticated eq_refl eq_refl)
    as (newSales & Hsales & Hstatus & Hmine & Hother).
  exists newSales. split_and!; [exact Hsales|exact Hstatus|exact Hmine|].
  exact (Hother ltac:(discriminate)).
Defined.

Lemma basket_ok : cart_ok basket.
Proof.
  split.
  - vm_compute. apply NoDup_cons. split; [|apply NoDup_singleton].
    intros Hin%list_elem_of_singleton. discriminate.
  - intros item Hitem.
    repeat (apply elem_of_cons in Hitem as [->|Hitem];
            [vm_compute; discriminate|]).
    by apply elem_of_nil in Hitem.
Defined.

Lemma basket_within_stock : cart_within_stock basket.
Proof.
  intros item Hitem.
  repeat (apply elem_of_cons in Hitem as [->|Hitem];
          [vm_compute; discriminate|]).
  by apply elem_of_nil in Hitem.
Defined.

Lemma cart_stays_ok_witness :
  cart_ok basket ∧ cart_ok (cart_next (UpdateQuantity 1 3 3) basket).
Proof.
  split; [exact basket_ok|].
  exact (cart_stays_ok (UpdateQuantity 1 3 3) basket basket_ok).
Defined.

Lemma cart_buttons_within_stock_witness :
  let line := CartItem.mk laptop 2 in
  cart_ok basket
  ∧ cart_within_stock basket
  ∧ (∀ item, item ∈ basket → CartItem.id item = Product.id laptop →
       CartItem.stock item = Product.stock laptop)
  ∧ line ∈ basket
  ∧ cart_within_stock (handleAdd laptop basket).1
  ∧ cart_within_stock (click_plus line basket).1
  ∧ cart_within_stock (click_minus line basket).1
  ∧ cart_within_stock (removeFromCart 2 basket).
Proof.
  intros line.
  assert (∀ item, item ∈ basket → CartItem.id item = Product.id laptop →
            CartItem.stock item = Product.stock laptop) as Hsame.
  { intros item Hitem.
    repeat (apply elem_of_cons in Hitem as [->|Hitem];
            [by vm_compute|]).
    by apply elem_of_nil in Hitem. }
  assert (line ∈ basket) as Hline by left.
  destruct (cart_buttons_within_stock basket basket_ok basket_within_stock)
    as (Hadd & Hclick & Hremove).
  split_and!; [exact basket_ok|exact basket_within_stock|exact Hsame
              |exact Hline|exact (Hadd laptop Hsame)
              |exact (proj1 (Hclick line Hline))
              |exact (proj2 (Hclick line Hline))|exact (Hremove 2%Z)].
Defined.

Lemma addToCart_counts_witness :
  cart_ok basket
  ∧ (addToCart laptop basket).2 = None
  ∧ itemCount (addToCart laptop basket).1 = (itemCount basket + 1)%Z
  ∧ total (addToCart laptop basket).1
    = (total basket
       + match list_find (λ item, CartItem.id item = Product.id laptop)
                         basket with
         | Some (_, existing) => CartItem.price existing
         | None => Product.price laptop
         end)%Z
  ∧ (addToCart mouse basket).2 = Some (max_stock_alert 1)
  ∧ (addToCart mouse basket).1 = basket.
Proof.
  split; [exact basket_ok|]. split; [reflexivity|].
  destruct (addToCart_counts laptop basket basket_ok) as [_ Hadded].
  destruct (Hadded eq_refl) as [Hcount Htotal].
  split; [exact Hcount|]. split; [exact Htotal|]. split; [reflexivity|].
  destruct (addToCart_counts mouse basket basket_ok) as [Hcapped _].
  exact (proj1 (Hcapped _ eq_refl)).
Defined.

Lemma checkout_accepted_witness :
  authenticated (H:=stub) (checkout_header "t-ana") ana_claim
  ∧ (∃ u, u ∈ users shop ∧ User.id u = Claim.id ana_claim)
  ∧ basket ≠ []
  ∧ NoDup (CartItem.id <$> basket)
  ∧ (∀ line, line ∈ basket →
       ∃ p, find_product (CartItem.id line) (products shop) = Some p
            ∧ (CartItem.quantity line ≤ Product.stock p)%Z)
  ∧ (∀ line p, line ∈ basket →
       find_product (CartItem.id line) (products shop) = Some p →
       Product.price p = CartItem.price line)
  ∧ ∃ st' r newSales,
      handle (H:=stub)
             (POST_orders (checkout_header "t-ana") (checkout_items basket))
             shop = (st', r)
      ∧ status r = 201
      ∧ sales st' = sales shop ++ newSales
      ∧ length newSales = length basket
      ∧ (∀ line p, line ∈ basket →
           find_product (CartItem.id line) (products shop) = Some p →
           find_product (CartItem.id line) (products st')
           = Some (Product.sub_stock (CartItem.quantity line) p))
      ∧ field "order" (body r) ≫= field "total" = Some (JNum (total basket)).
Proof.
  assert (∃ u, u ∈ users shop ∧ User.id u = Claim.id ana_claim) as Huser.
  { exists ana. split; [right; left|reflexivity]. }
  assert (∀ line, line ∈ basket →
            ∃ p, find_product (CartItem.id line) (products shop) = Some p
                 ∧ (CartItem.quantity line ≤ Product.stock p)%Z) as Hstock.
  { intros line Hline.
    apply elem_of_cons in Hline as [->|Hline];
      [exists laptop; split; [reflexivity|vm_compute; discriminate]|].
    apply elem_of_cons in Hline as [->|Hline];
      [exists mouse; split; [reflexivity|vm_compute; discriminate]|].
    by apply elem_of_nil in Hline. }
  assert (∀ line p, line ∈ basket →
            find_product (CartItem.id line) (products shop) = Some p →
            Product.price p = CartItem.price line) as Hprices.
  { intros line p Hline.
    repeat (apply elem_of_cons in Hline as [->|Hline];
            [by intros [= <-]|]).
    by apply elem_of_nil in Hline. }
  split_and!; [apply ana_authenticated|exact Huser|discriminate
              |exact (proj1 basket_ok)|exact Hstock|exact Hprices|].
  destruct (checkout_accepted (H:=stub) "t-ana" ana_claim basket shop
              ana_authenticated Huser ltac:(discriminate) (proj1 basket_ok)
              Hstock)
    as (st' & r & newSales & Hreq & Hstatus & Hsales & Hlen & Hserved & Htotal).
  exists st', r, newSales.
  split_and!; [exact Hreq|exact Hstatus|exact Hsales|exact Hlen|exact Hserved|].
  exact (Htotal Hprices).
Defined.

Lemma category_filter_witness :
  let ps := [laptop; mouse] in
  "Accesorios" ∈ categories ps
  ∧ "Accesorios" ≠ "Todos"
  ∧ filteredProducts "Accesorios" ps ≠ []
  ∧ filteredProducts "Accesorios" ps
    = filter (λ p, Product.category p = "Accesorios") ps
  ∧ (∀ p, p ∈ filteredProducts "Accesorios" ps
          ↔ p ∈ ps ∧ Product.category p = "Accesorios")
  ∧ filteredProducts "Todos" ps = ps.
Proof.
  intros ps.
  assert ("Accesorios" ∈ categories ps) as Hin by (right; left).
  destruct (category_filter ps) as (Hnonempty & Hfilter & Hall).
  destruct (Hfilter "Accesorios" ltac:(discriminate)) as [Heq Hiff].
  split_and!; [exact Hin|discriminate|exact (Hnonempty _ Hin)|exact Heq
              |exact Hiff|exact Hall].
Defined.

Lemma user_ids_can_repeat_witness :
  let name := "Beto" in
  let email := "beto@mail.com" in
  let password := "secret" in
  authenticated (H:=stub) admin_header admin_claim
  ∧ Claim.role admin_claim = "admin"
  ∧ (∀ j v, users shop !! j = Some v → User.id v = (Z.of_nat j + 1)%Z)
  ∧ users shop !! 0 = Some admin
  ∧ 1 < length (users shop)
  ∧ (∀ s, s ∈ sales shop → Sale.userId s ≠ User.id admin)
  ∧ name ≠ "" ∧ email ≠ "" ∧ password ≠ ""
  ∧ (∀ v, v ∈ users shop → User.email v ≠ email)
  ∧ ∃ st1 r1 st2 r2 last new,
      handle (H:=stub) (DELETE_user admin_header (User.id admin)) shop
      = (st1, r1)
      ∧ status r1 = 200
      ∧ handle (H:=stub)
               (POST_auth_register
                  (mkRegisterBody (Some name) (Some email) (Some password)
                                  None None)) st1 = (st2, r2)
      ∧ status r2 = 201
      ∧ last ∈ users shop ∧ last ∈ users st2
      ∧ new ∈ users st2 ∧ User.email new = email
      ∧ last ≠ new
      ∧ User.id new = User.id last
      ∧ ¬ NoDup (User.id <$> users st2).
Proof.
  intros name email password.
  assert (∀ j v, users shop !! j = Some v → User.id v = (Z.of_nat j + 1)%Z)
    as Hseq.
  { intros [|[|j]] v [= <-]; reflexivity. }
  assert (∀ s, s ∈ sales shop → Sale.userId s ≠ User.id admin) as Hnosale.
  { intros s Hs. by apply elem_of_nil in Hs. }
  assert (∀ v, v ∈ users shop → User.email v ≠ email) as Hnew.
  { intros v Hv.
    repeat (apply elem_of_cons in Hv as [->|Hv]; [discriminate|]).
    by apply elem_of_nil in Hv. }
  split_and!; [apply admin_authenticated|reflexivity|exact Hseq|reflexivity
              |simpl; lia|exact Hnosale|discriminate|discriminate|discriminate
              |exact Hnew|].
  exact (user_ids_can_repeat (H:=stub) admin_header admin_claim 0 admin
           name email password None None shop admin_authenticated eq_refl
           Hseq eq_refl ltac:(simpl; lia) Hnosale ltac:(discriminate)
           ltac:(discriminate) ltac:(discriminate) Hnew).
Defined.

Lemma sale_registration_ignores_stock_witness :
  ana ∈ users shop
  ∧ User.id ana = 2%Z
  ∧ find_product 2 (products shop) = Some mouse
  ∧ (50 > Product.stock mouse)%Z
  ∧ (∃ st' r,
       legacy_handle (H:=stub) (L_POST_sales 2 2 50) shop = (st', r)
       ∧ status r = 201
       ∧ sales st'
         = sales shop ++ [Sale.mk (Z.of_nat (length (sales shop)) + 1)
                                  2 2 50 (Product.price mouse * 50)
                                  (now (Externals:=stub) 0)]
       ∧ sales_json st' = sales st'
       ∧ products st' = products shop)
  ∧ find_product 9 (products shop) = None
  ∧ legacy_handle (H:=stub) (L_POST_sales 2 9 1) shop
    = (shop, error 400 "Usuario o producto inválido").
Proof.
  assert (ana ∈ users shop) as Hana by (right; left).
  split; [exact Hana|]. split; [reflexivity|]. split; [reflexivity|].
  split; [reflexivity|]. split.
  { destruct (sale_registration_ignores_stock (H:=stub) 2 2 50 shop)
      as (Hproducts & _ & Hknown & _).
    destruct (Hknown ana mouse Hana eq_refl eq_refl)
      as (st' & r & Hreq & Hstatus & Hsales & Hfile).
    exists st', r. rewrite Hreq in Hproducts.
    split_and!; [exact Hreq|exact Hstatus|exact Hsales|exact Hfile
                |exact Hproducts]. }
  split; [reflexivity|].
  destruct (sale_registration_ignores_stock (H:=stub) 2 9 1 shop)
    as (_ & _ & _ & Hunknown).
  exact (Hunknown (or_intror eq_refl)).
Defined.

Lemma legacy_order_registers_buyer_witness :
  let beto := mkBuyer "Beto" "beto@mail.com" "" "Calle 2" in
  let anab := mkBuyer "Ana" "ana@mail.com" "" "" in
  let items := [Item.mk 1 5] in
  items ≠ []
  ∧ (∀ u, u ∈ users shop → User.email u ≠ buyer_email beto)
  ∧ status (legacy_handle (H:=stub) (L_POST_orders (Some beto) items) shop).2
    = 400
  ∧ users (legacy_handle (H:=stub) (L_POST_orders (Some beto) items) shop).1
    = users shop ++ [User.mk 3 "Beto" "beto@mail.com" None "" "Calle 2"
                             "customer"]
  ∧ users_json
      (legacy_handle (H:=stub) (L_POST_orders (Some beto) items) shop).1
    = users (legacy_handle (H:=stub) (L_POST_orders (Some beto) items) shop).1
  ∧ (∃ u, u ∈ users shop ∧ User.email u = buyer_email anab)
  ∧ users (legacy_handle (H:=stub) (L_POST_orders (Some anab) items) shop).1
    = users shop.
Proof.
  intros beto anab items.
  assert (∀ u, u ∈ users shop → User.email u ≠ buyer_email beto) as Hnew.
  { intros u Hu.
    repeat (apply elem_of_cons in Hu as [->|Hu]; [discriminate|]).
    by apply elem_of_nil in Hu. }
  assert (∃ u, u ∈ users shop ∧ User.email u = buyer_email anab) as Hknown.
  { exists ana. split; [right; left|reflexivity]. }
  split; [discriminate|]. split; [exact Hnew|]. split; [reflexivity|].
  destruct (legacy_order_registers_buyer (H:=stub) beto items shop
              ltac:(discriminate)) as [Hadded _].
  destruct (Hadded Hnew) as [Husers Hfile].
  split; [exact Husers|]. split; [exact Hfile|]. split; [exact Hknown|].
  destruct (legacy_order_registers_buyer (H:=stub) anab items shop
              ltac:(discriminate)) as [_ Hsame].
  exact (Hsame Hknown).
Defined.
